(** * Trust-chain discovery and validation: [spid_cie_oidc/entity/statements.py]

    A shallow embedding of the entity-statement module of spid-cie-oidc-django
    and the properties of its trust-chain engine.

    - Decoded tokens are JSON documents ([json]); the Python operations the
      module applies to them (subscript, [.get], iteration, slicing, [==],
      [in], [.index], [str.join]) are written out with the exceptions they
      raise on values of the wrong shape.
    - [EntityConfiguration] instances live in a store ([heap]) and are
      designated by references, so that an instance reached through two names
      is one object.
    - Methods are computations in a state-and-exception monad [M]: a raised
      exception keeps every mutation done before it.
    - The modules [jwtse] and [http_client] are collaborators of this file:
      their functions are the fields of the class [Collaborators]. *)

From stdpp Require Import base option list strings gmap.
From Stdlib Require Import ZArith Lia Ascii.

Local Open Scope string_scope.
Local Open Scope list_scope.
Local Open Scope Z_scope.
#[local] Set Warnings "-register-all".

(** ** Decoded documents *)

(** What [json.loads] yields: [None], [bool], [int], [str], [list], [dict].
    Floating-point numbers are left out; a [dict] is kept as the list of its
    items in insertion order, and lookup takes the first item of a key. *)
Inductive json : Type :=
  | JNull
  | JBool (b : bool)
  | JInt (n : Z)
  | JStr (s : string)
  | JList (l : list json)
  | JObj (kv : list (string * json)).

(** Exceptions, all of them subclasses of Python's [Exception].
    [OtherError] stands for the classes of the libraries behind the
    collaborators (decoding, signature and transport errors). *)
Inductive exn : Type :=
  | KeyError
  | TypeError
  | AttributeError
  | ValueError
  | IndexError
  | UnboundLocalError (var : string)
  | NotImplementedError
  | UnknownKid (kid jwks : json)
  | OtherError (name : string).

Inductive res (A : Type) : Type :=
  | Ok (a : A)
  | Err (e : exn).
Arguments Ok {A} a.
Arguments Err {A} e.

Definition res_bind {A B} (r : res A) (f : A → res B) : res B :=
  match r with
  | Ok a => f a
  | Err e => Err e
  end.

Definition is_ok {A} (r : res A) : bool :=
  match r with Ok _ => true | Err _ => false end.

#[global] Instance res_ret : MRet res := @Ok.
#[global] Instance res_mbind : MBind res := λ A B f r, res_bind r f.
#[global] Instance res_fmap : FMap res := λ A B f r, res_bind r (λ a, Ok (f a)).

Fixpoint res_mapM {A B} (f : A → res B) (l : list A) : res (list B) :=
  match l with
  | [] => Ok []
  | a :: l' =>
      match f a with
      | Ok b => match res_mapM f l' with
                | Ok bs => Ok (b :: bs)
                | Err e => Err e
                end
      | Err e => Err e
      end
  end.

(** ** Python operations on decoded documents *)

Fixpoint assoc (k : string) (kv : list (string * json)) : option json :=
  match kv with
  | [] => None
  | (k', v) :: kv' => if String.eqb k k' then Some v else assoc k kv'
  end.

(** [v[k]] for a string literal [k]. *)
Definition py_getitem (v : json) (k : string) : res json :=
  match v with
  | JObj kv => match assoc k kv with
               | Some x => Ok x
               | None => Err KeyError
               end
  | _ => Err TypeError
  end.

(** [v.get(k)]: only a [dict] has the method. *)
Definition py_get (v : json) (k : string) : res json :=
  match v with
  | JObj kv => Ok (default JNull (assoc k kv))
  | _ => Err AttributeError
  end.

(** The claim [k] of a payload, when the payload is a [dict] that has it. *)
Definition claim (v : json) (k : string) : option json :=
  match v with
  | JObj kv => assoc k kv
  | _ => None
  end.

Definition chars (s : string) : list json :=
  (λ c, JStr (String c EmptyString)) <$> String.list_ascii_of_string s.

(** [for i in v]: the items a loop or a comprehension goes through. *)
Definition py_iter (v : json) : res (list json) :=
  match v with
  | JList l => Ok l
  | JStr s => Ok (chars s)
  | JObj kv => Ok ((λ p, JStr p.1) <$> kv)
  | _ => Err TypeError
  end.

(** [bool(v)], as [or] and [if] take it. *)
Definition py_truthy (v : json) : bool :=
  match v with
  | JNull => false
  | JBool b => b
  | JInt n => negb (n =? 0)
  | JStr s => negb (String.eqb s "")
  | JList l => match l with [] => false | _ => true end
  | JObj kv => match kv with [] => false | _ => true end
  end.

(** [a == b]: [True] and [False] compare as [1] and [0], and two [dict]s are
    equal when they have the same keys with equal values, in any order. *)
Fixpoint py_eq (a b : json) {struct a} : bool :=
  match a, b with
  | JNull, JNull => true
  | JBool x, JBool y => Bool.eqb x y
  | JBool x, JInt n => Z.b2z x =? n
  | JInt n, JBool y => n =? Z.b2z y
  | JInt n, JInt m => n =? m
  | JStr s, JStr t => String.eqb s t
  | JList l, JList m =>
      (fix go (l m : list json) : bool :=
         match l, m with
         | [], [] => true
         | x :: l', y :: m' => py_eq x y && go l' m'
         | _, _ => false
         end) l m
  | JObj kv, JObj kw =>
      (length kv =? length kw)%nat &&
      (fix go (kv : list (string * json)) : bool :=
         match kv with
         | [] => true
         | (k, v) :: kv' =>
             match assoc k kw with
             | Some w => py_eq v w
             | None => false
             end && go kv'
         end) kv
  | _, _ => false
  end.

(** [x in l]: some item [e] of [l] has [e == x]. *)
Definition py_in (x : json) (l : list json) : bool :=
  existsb (λ e, py_eq e x) l.

(** [l.index(x)]. *)
Fixpoint py_index (l : list json) (x : json) : res nat :=
  match l with
  | [] => Err ValueError
  | y :: l' =>
      if py_eq y x then Ok O
      else match py_index l' x with
           | Ok i => Ok (S i)
           | Err e => Err e
           end
  end.

(** [v[i]] for an index [i] that [list.index] returned. *)
Definition py_getitem_idx (v : json) (i : nat) : res json :=
  match v with
  | JList l => match l !! i with
               | Some x => Ok x
               | None => Err IndexError
               end
  | JStr s => match chars s !! i with
              | Some x => Ok x
              | None => Err IndexError
              end
  | JObj _ => Err KeyError
  | _ => Err TypeError
  end.

(** Where a slice bound [n] falls in a sequence of [len] items. *)
Definition slice_bound (len : nat) (n : Z) : nat :=
  if n <? 0 then Z.to_nat (Z.of_nat len + n) else Z.to_nat n.

Definition string_take (n : nat) (s : string) : string :=
  String.string_of_list_ascii (take n (String.list_ascii_of_string s)).
Definition string_drop (n : nat) (s : string) : string :=
  String.string_of_list_ascii (drop n (String.list_ascii_of_string s)).

(** [v[:n]] and [v[n:]]. *)
Definition py_slice_to (v : json) (n : Z) : res json :=
  match v with
  | JList l => Ok (JList (take (slice_bound (length l) n) l))
  | JStr s => Ok (JStr (string_take (slice_bound (String.length s) n) s))
  | _ => Err TypeError
  end.

Definition py_slice_from (v : json) (n : Z) : res json :=
  match v with
  | JList l => Ok (JList (drop (slice_bound (length l) n) l))
  | JStr s => Ok (JStr (string_drop (slice_bound (String.length s) n) s))
  | _ => Err TypeError
  end.

(** [len(v)]. *)
Definition py_len (v : json) : res Z :=
  match v with
  | JList l => Ok (Z.of_nat (length l))
  | JStr s => Ok (Z.of_nat (String.length s))
  | JObj kv => Ok (Z.of_nat (length kv))
  | _ => Err TypeError
  end.

Definition as_str (v : json) : res string :=
  match v with
  | JStr s => Ok s
  | _ => Err TypeError
  end.

Fixpoint join (sep : string) (l : list string) : string :=
  match l with
  | [] => ""
  | [s] => s
  | s :: l' => s +:+ sep +:+ join sep l'
  end.

(** [sep.join(v)]: every item has to be a [str]. *)
Definition py_join (sep : string) (v : json) : res string :=
  items ← py_iter v;
  strs ← res_mapM as_str items;
  Ok (join sep strs).

(** ** Dictionaries of an instance *)

(** A hashable key; [True] and [False] are the keys [1] and [0]. *)
Inductive key : Type :=
  | KNone
  | KInt (n : Z)
  | KStr (s : string).

#[global] Instance key_eq_dec : EqDecision key.
Proof. solve_decision. Defined.

Definition key_enc (k : key) : unit + Z + string :=
  match k with
  | KNone => inl (inl tt)
  | KInt n => inl (inr n)
  | KStr s => inr s
  end.

Definition key_dec (x : unit + Z + string) : key :=
  match x with
  | inl (inl _) => KNone
  | inl (inr n) => KInt n
  | inr s => KStr s
  end.

#[global] Instance key_countable : Countable key.
Proof. apply (inj_countable' key_enc key_dec). by intros []. Defined.

(** [hash(v)], which a subscript assignment [d[v] = x] calls first. *)
Definition hash_key (v : json) : res key :=
  match v with
  | JNull => Ok KNone
  | JBool b => Ok (KInt (Z.b2z b))
  | JInt n => Ok (KInt n)
  | JStr s => Ok (KStr s)
  | JList _ | JObj _ => Err TypeError
  end.

(** ** Instances, events and the collaborators *)

Definition loc := positive.

(** What a dictionary of an instance holds: a reference to an instance, or
    plain data (a payload, [True], [False], [None]). *)
Inductive value : Type :=
  | VRef (l : loc)
  | VJson (j : json).

(** The attributes of an [EntityConfiguration] instance.  [__init__] sets
    all of them but [invalid_superiors], which is [None] here as long as no
    assignment has created it. *)
Module EC.
Record t : Type := mk {
  jwt : string;
  header : json;
  payload : json;
  sub : json;
  jwks : json;
  kids : list json;
  httpc_params : json;
  filter_by_allowed_trust_marks : json;
  trust_anchors_entity_confs : json;
  trust_mark_issuers_entity_confs : json;
  verified_superiors : gmap key value;
  failed_superiors : gmap key value;
  verified_by_superiors : gmap key value;
  failed_by_superiors : gmap key value;
  invalid_superiors : option (gmap key value);
  is_valid : bool
}.

Definition set_is_valid (b : bool) (o : t) : t :=
  mk (jwt o) (header o) (payload o) (sub o) (jwks o) (kids o)
     (httpc_params o) (filter_by_allowed_trust_marks o)
     (trust_anchors_entity_confs o) (trust_mark_issuers_entity_confs o)
     (verified_superiors o) (failed_superiors o)
     (verified_by_superiors o) (failed_by_superiors o)
     (invalid_superiors o) b.

Definition set_verified_superiors (d : gmap key value) (o : t) : t :=
  mk (jwt o) (header o) (payload o) (sub o) (jwks o) (kids o)
     (httpc_params o) (filter_by_allowed_trust_marks o)
     (trust_anchors_entity_confs o) (trust_mark_issuers_entity_confs o)
     d (failed_superiors o)
     (verified_by_superiors o) (failed_by_superiors o)
     (invalid_superiors o) (is_valid o).

Definition set_failed_superiors (d : gmap key value) (o : t) : t :=
  mk (jwt o) (header o) (payload o) (sub o) (jwks o) (kids o)
     (httpc_params o) (filter_by_allowed_trust_marks o)
     (trust_anchors_entity_confs o) (trust_mark_issuers_entity_confs o)
     (verified_superiors o) d
     (verified_by_superiors o) (failed_by_superiors o)
     (invalid_superiors o) (is_valid o).

Definition set_verified_by_superiors (d : gmap key value) (o : t) : t :=
  mk (jwt o) (header o) (payload o) (sub o) (jwks o) (kids o)
     (httpc_params o) (filter_by_allowed_trust_marks o)
     (trust_anchors_entity_confs o) (trust_mark_issuers_entity_confs o)
     (verified_superiors o) (failed_superiors o)
     d (failed_by_superiors o)
     (invalid_superiors o) (is_valid o).

Definition set_invalid_superiors (d : gmap key value) (o : t) : t :=
  mk (jwt o) (header o) (payload o) (sub o) (jwks o) (kids o)
     (httpc_params o) (filter_by_allowed_trust_marks o)
     (trust_anchors_entity_confs o) (trust_mark_issuers_entity_confs o)
     (verified_superiors o) (failed_superiors o)
     (verified_by_superiors o) (failed_by_superiors o)
     (Some d) (is_valid o).
End EC.

Abbreviation EntityConfiguration := EC.t.

(** The two dictionaries [validate_by_itself] routes a superior into. *)
Inductive target : Type :=
  | verified_superiors
  | failed_superiors.

Definition target_get (t : target) (o : EntityConfiguration) : gmap key value :=
  match t with
  | verified_superiors => EC.verified_superiors o
  | failed_superiors => EC.failed_superiors o
  end.

(** [target[k] = v] *)
Definition target_setitem (t : target) (k : key) (v : value)
    (o : EntityConfiguration) : EntityConfiguration :=
  match t with
  | verified_superiors =>
      EC.set_verified_superiors (<[k := v]> (EC.verified_superiors o)) o
  | failed_superiors =>
      EC.set_failed_superiors (<[k := v]> (EC.failed_superiors o)) o
  end.

(** A log record keeps the fields of its f-string as values. *)
Inductive level : Type :=
  | INFO
  | WARNING.

Inductive frag : Type :=
  | Lit (s : string)
  | Fmt (v : json).

(** What a run does to the outside: log records and batches of requests. *)
Inductive event : Type :=
  | EvLog (lv : level) (msg : list frag)
  | EvHttpGet (urls httpc_params : json).

(** The functions this file imports from [jwtse] and [http_client].
    [http_get] answers a batch of URLs with the response bodies, or raises;
    [World] is whatever the answers of the network depend on. *)
Class Collaborators : Type := {
  World : Type;
  http_get : json → json → World → res (list string) * World;
  unpad_jwt_head : string → res json;
  unpad_jwt_payload : string → res json;
  verify_jws : string → json → res string
}.

Definition OIDCFED_FEDERATION_WELLKNOWN_URL : string :=
  ".well-known/openid-federation".

Section statements.
Context `{C : Collaborators}.

Record state : Type := mkState {
  heap : gmap loc EntityConfiguration;
  events : list event;
  net : World
}.

(** ** The monad of the methods *)

Definition M (A : Type) : Type := state → res A * state.

Definition ret {A} (a : A) : M A := λ st, (Ok a, st).

Definition bind {A B} (m : M A) (f : A → M B) : M B :=
  λ st, match m st with
        | (Ok a, st') => f a st'
        | (Err e, st') => (Err e, st')
        end.

Definition raise {A} (e : exn) : M A := λ st, (Err e, st).

Definition lift {A} (r : res A) : M A := λ st, (r, st).

#[global] Instance M_ret : MRet M := @ret.
#[global] Instance M_bind : MBind M := λ A B f m, bind m f.

(** [for x in l: body] *)
Fixpoint for_each {A} (l : list A) (body : A → M unit) : M unit :=
  match l with
  | [] => ret tt
  | x :: l' => body x ;; for_each l' body
  end.

(** Reading an instance through a reference.  A Python reference always
    designates a live object; the [AttributeError] of a reference outside
    the store only makes the function total. *)
Definition get_obj (l : loc) : M EntityConfiguration :=
  λ st, match heap st !! l with
        | Some o => (Ok o, st)
        | None => (Err AttributeError, st)
        end.

Definition modify_obj (l : loc) (f : EntityConfiguration → EntityConfiguration)
    : M unit :=
  λ st, match heap st !! l with
        | Some o => (Ok tt, mkState (<[l := f o]> (heap st)) (events st) (net st))
        | None => (Err AttributeError, st)
        end.

Definition alloc (o : EntityConfiguration) : M loc :=
  λ st, let l := fresh (dom (heap st)) in
        (Ok l, mkState (<[l := o]> (heap st)) (events st) (net st)).

Definition emit (ev : event) : M unit :=
  λ st, (Ok tt, mkState (heap st) (events st ++ [ev]) (net st)).

Definition logger (lv : level) (msg : list frag) : M unit :=
  emit (EvLog lv msg).

(** [asyncio.run(http_get(urls, httpc_params))] *)
Definition run_http_get (urls httpc_params : json) : M (list string) :=
  λ st, let '(r, w) := http_get urls httpc_params (net st) in
        (r, mkState (heap st) (events st ++ [EvHttpGet urls httpc_params]) w).

(** ** Module-level functions *)

(** The remote key set of a [jwks_uri] is commented out in the source. *)
Definition get_jwks (jwt_payload httpc_params : json) : res json :=
  py_get jwt_payload "jwks".

Definition get_entity_statements (urls httpc_params : json)
    : M (list string) :=
  let urls := match urls with JStr _ => JList [urls] | _ => urls end in
  items ← lift (py_iter urls);
  for_each items (λ url,
    logger INFO [Lit "Starting Entity Statement Request for "; Fmt url]) ;;
  run_http_get urls httpc_params.

(** The argument of [get_entity_configurations]: a list of subjects, or
    one subject as a [str]. *)
Inductive subjects_arg : Type :=
  | OneSubject (s : string)
  | Subjects (l : list string).

(** [subject[-1]] *)
Definition py_last (s : string) : res Ascii.ascii :=
  match last (String.list_ascii_of_string s) with
  | Some c => Ok c
  | None => Err IndexError
  end.

(** Lines 43-45: the discovery URL of one subject. *)
Definition well_known_url (subject : string) : res string :=
  c ← py_last subject;
  let subject :=
    if negb (Ascii.eqb c "/"%char) then subject +:+ "/" else subject in
  Ok (subject +:+ OIDCFED_FEDERATION_WELLKNOWN_URL).

Fixpoint build_urls (subjects : list string) (urls : list string)
    : M (list string) :=
  match subjects with
  | [] => ret urls
  | subject :: rest =>
      url ← lift (well_known_url subject);
      let urls := urls ++ [url] in
      logger INFO [Lit "Starting Entity Configuration Request for ";
                   Fmt (JStr url)] ;;
      build_urls rest urls
  end.

Definition get_entity_configurations (subjects : subjects_arg)
    (httpc_params : json) : M (list string) :=
  let subjects :=
    match subjects with OneSubject s => [s] | Subjects l => l end in
  urls ← build_urls subjects [];
  run_http_get (JList (JStr <$> urls)) httpc_params.

(** [[i.get("kid") for i in jwks]] *)
Definition kids_of (jwks : json) : res (list json) :=
  items ← py_iter jwks;
  res_mapM (λ i, py_get i "kid") items.

(** ** class EntityConfiguration *)

(** [__init__].  The instance exists for the caller only when every line
    has run, so the allocation is the last step. *)
Definition EntityConfiguration__init__ (jwt : string)
    (httpc_params filter_by_allowed_trust_marks trust_anchors_entity_confs
     trust_mark_issuers_entity_confs : json) : M loc :=
  header ← lift (unpad_jwt_head jwt);
  payload ← lift (unpad_jwt_payload jwt);
  sub ← lift (py_getitem payload "sub");
  jwks ← lift (get_jwks payload httpc_params);
  kids ← lift (kids_of jwks);
  alloc (EC.mk jwt header payload sub jwks kids httpc_params
           filter_by_allowed_trust_marks trust_anchors_entity_confs
           trust_mark_issuers_entity_confs ∅ ∅ ∅ ∅ None false).

Definition validate_by_itself (self : loc) : M bool :=
  o ← get_obj self;
  kid ← lift (py_get (EC.header o) "kid");
  (if negb (py_in kid (EC.kids o)) then
     shown ← lift (py_get (EC.header o) "kid");
     raise (UnknownKid shown (EC.jwks o))
   else (ret tt : M unit)) ;;
  kid ← lift (py_getitem (EC.header o) "kid");
  i ← lift (py_index (EC.kids o) kid);
  k ← lift (py_getitem_idx (EC.jwks o) i);
  lift (verify_jws (EC.jwt o) k) ;;
  modify_obj self (EC.set_is_valid true) ;;
  ret true.

Definition get_valid_trust_marks (self : loc) : M bool :=
  raise NotImplementedError.

(** The loop of [get_superiors] (lines 131-138) for one fetched token. *)
Definition route_superior (self : loc) (jwt : string) : M unit :=
  o ← get_obj self;
  ec ← EntityConfiguration__init__ jwt (EC.httpc_params o)
         (JList []) (JList []) (JList []);
  ok ← validate_by_itself ec;
  let target :=
    if ok : bool then verified_superiors else failed_superiors in
  o_ec ← get_obj ec;
  sub ← lift (py_getitem (EC.payload o_ec) "sub");
  k ← lift (hash_key sub);
  modify_obj self (target_setitem target k (VRef ec)).

(** Line 116: [authority_hints or self.payload["authority_hints"]] *)
Definition effective_authority_hints (o : EntityConfiguration)
    (authority_hints : json) : res json :=
  if py_truthy authority_hints then Ok authority_hints
  else py_getitem (EC.payload o) "authority_hints".

(** Lines 116-127: the hints that are fetched. *)
Definition clamp_authority_hints (self : loc) (authority_hints : json)
    (max_authority_hints : Z) : M json :=
  o ← get_obj self;
  authority_hints ← lift (effective_authority_hints o authority_hints);
  if negb (max_authority_hints =? 0) then
    kept ← lift (py_slice_to authority_hints max_authority_hints);
    if negb (py_eq authority_hints kept) then
      n ← lift (py_len authority_hints);
      ignored ← lift (py_slice_from authority_hints max_authority_hints);
      names ← lift (py_join ", " ignored);
      logger WARNING
        [Lit "Found "; Fmt (JInt n); Lit " but ";
         Lit "authority maximum hints is set to ";
         Fmt (JInt max_authority_hints); Lit ". ";
         Lit "the following authorities will be ignored: ";
         Fmt (JStr names)] ;;
      lift (py_slice_to authority_hints max_authority_hints)
    else ret authority_hints
  else ret authority_hints.

Definition get_superiors (self : loc) (authority_hints : json)
    (max_authority_hints : Z) : M (gmap key value) :=
  authority_hints ←
    clamp_authority_hints self authority_hints max_authority_hints;
  o ← get_obj self;
  jwts ← get_entity_statements authority_hints (EC.httpc_params o);
  for_each jwts (route_superior self) ;;
  o ← get_obj self;
  ret (EC.verified_superiors o).

Definition validate_descendant_statement (self : loc) (jwt : string)
    : M bool :=
  header ← lift (unpad_jwt_head jwt);
  lift (unpad_jwt_payload jwt) ;;
  o ← get_obj self;
  kid ← lift (py_get header "kid");
  (if negb (py_in kid (EC.kids o)) then
     shown ← lift (py_get (EC.header o) "kid");
     raise (UnknownKid shown (EC.jwks o))
   else (ret tt : M unit)) ;;
  kid ← lift (py_getitem header "kid");
  i ← lift (py_index (EC.kids o) kid);
  k ← lift (py_getitem_idx (EC.jwks o) i);
  lift (verify_jws jwt k) ;;
  ret true.

(** [try: body except Exception: handler]: every [exn] is an [Exception]. *)
Definition try_except {A} (body : M A) (handler : exn → M A) : M A :=
  λ st, match body st with
        | (Ok a, st') => (Ok a, st')
        | (Err e, st') => handler e st'
        end.

(** Lines 164-168, which run once [payload] is bound. *)
Definition superior_statement_checks (self : loc) (jwt : string) (ec : loc)
    (payload : json) : M unit :=
  validate_by_itself ec ;;
  validate_descendant_statement ec jwt ;;
  o ← get_obj self;
  _jwks ← lift (get_jwks payload (EC.httpc_params o));
  _kids ← lift (kids_of _jwks);
  kid ← lift (py_getitem (EC.header o) "kid");
  i ← lift (py_index _kids kid);
  k ← lift (py_getitem_idx _jwks i);
  lift (verify_jws (EC.jwt o) k) ;;
  ret tt.

(** The [try] statement of lines 162-171 leaves two locals: [payload],
    bound only if [unpad_jwt_payload] returned, and [is_valid]. *)
Definition superior_statement_try (self : loc) (jwt : string) (ec : loc)
    : M (option json * bool) :=
  match unpad_jwt_payload jwt with
  | Err _ => ret (None, false)
  | Ok payload =>
      try_except
        (superior_statement_checks self jwt ec payload ;;
         ret (Some payload, true))
        (λ _, ret (Some payload, false))
  end.

Definition validate_by_superior_statement (self : loc) (jwt : string)
    (ec : loc) : M bool :=
  '(payload, is_valid) ← superior_statement_try self jwt ec;
  get_obj self ;;
  let target :=
    if is_valid : bool then verified_superiors else failed_superiors in
  match payload with
  | None => raise (UnboundLocalError "payload")
  | Some payload =>
      iss ← lift (py_getitem payload "iss");
      k ← lift (hash_key iss);
      modify_obj self (target_setitem target k (VJson payload)) ;;
      ret is_valid
  end.

(** [ec.payload["metadata"]["federation_entity"]["federation_api_endpoint"]] *)
Definition federation_api_endpoint (payload : json) : res json :=
  metadata ← py_getitem payload "metadata";
  federation_entity ← py_getitem metadata "federation_entity";
  py_getitem federation_entity "federation_api_endpoint".

(** The loop of [validate_by_superiors] for one superior; the iterable
    yields references to instances. *)
Definition validate_by_superior (self ec : loc) : M unit :=
  o_ec ← get_obj ec;
  match federation_api_endpoint (EC.payload o_ec) with
  | Err KeyError =>
      o ← get_obj self;
      logger WARNING
        [Lit "Missing federation_api_endpoint in federation_entity metadata ";
         Lit "for "; Fmt (EC.sub o); Lit " by "; Fmt (EC.sub o_ec);
         Lit "."] ;;
      match EC.invalid_superiors o with
      | None => raise AttributeError
      | Some d =>
          k ← lift (hash_key (EC.sub o_ec));
          modify_obj self (EC.set_invalid_superiors (<[k := VJson JNull]> d))
      end
  | Err e => raise e
  | Ok fetch_api_url =>
      o ← get_obj self;
      jwts ← get_entity_statements (JList [fetch_api_url])
                (EC.httpc_params o);
      jwt ← lift (match jwts with
                  | jwt :: _ => Ok jwt
                  | [] => Err IndexError
                  end);
      outcome ← validate_by_superior_statement self jwt ec;
      o_ec ← get_obj ec;
      k ← lift (hash_key (EC.sub o_ec));
      modify_obj self (λ o,
        EC.set_verified_by_superiors
          (<[k := VJson (JBool outcome)]> (EC.verified_by_superiors o)) o)
  end.

Definition validate_by_superiors (self : loc)
    (superiors_entity_configurations : list loc) : M (gmap key value) :=
  for_each superiors_entity_configurations (validate_by_superior self) ;;
  o ← get_obj self;
  ret (EC.verified_by_superiors o).

End statements.

(** ** The remote key set *)

Section remote_key_set.
Context `{C : Collaborators}.

(** [json.loads(s)] where [s] is what [http_get] returns, the list of the
    response bodies: [json.loads] takes a [str], [bytes] or [bytearray] and
    raises [TypeError] on anything else. *)
Definition json_loads_responses (s : list string) : res json :=
  Err TypeError.

Definition jwks_from_jwks_uri (jwks_uri httpc_params : json) : M (list json) :=
  responses ← run_http_get (JList [jwks_uri]) httpc_params;
  document ← lift (json_loads_responses responses);
  ret [document].

End remote_key_set.

(** ** Vocabulary of the properties *)

Definition ends_with_slash (s : string) : Prop := ∃ p, s = p +:+ "/".

(** The relation between a subject and its discovery URL. *)
Definition discovery_url_of (subject url : string) : Prop :=
  (ends_with_slash subject →
     url = subject +:+ ".well-known/openid-federation") ∧
  (¬ ends_with_slash subject →
     url = (subject +:+ "/") +:+ ".well-known/openid-federation").

Section vocabulary.
Context `{C : Collaborators}.

Definition configuration_request (url : string) : event :=
  EvLog INFO [Lit "Starting Entity Configuration Request for ";
              Fmt (JStr url)].

(** The store once [validate_by_itself] has accepted the instance [ec]. *)
Definition validated (ec : loc) (st : state) : state :=
  match heap st !! ec with
  | Some o =>
      mkState (<[ec := EC.set_is_valid true o]> (heap st)) (events st)
        (net st)
  | None => st
  end.

Definition missing_endpoint_warning (o o_ec : EntityConfiguration) : event :=
  EvLog WARNING
    [Lit "Missing federation_api_endpoint in federation_entity metadata ";
     Lit "for "; Fmt (EC.sub o); Lit " by "; Fmt (EC.sub o_ec); Lit "."].

(** [m] takes every state to one related to it by [P], whether it returns
    or raises. *)
Definition preserves (P : state → state → Prop) {A} (m : M A) : Prop :=
  ∀ st, P st (m st).2.

(** The events are as they were. *)
Definition quiet (st st' : state) : Prop := events st' = events st.

Definition statement_request (url : json) : event :=
  EvLog INFO [Lit "Starting Entity Statement Request for "; Fmt url].

(** The warning of lines 121-126 for the hints [hints] and the limit. *)
Definition ignored_warning (hints : list string) (max_authority_hints : Z)
    : event :=
  EvLog WARNING
    [Lit "Found "; Fmt (JInt (Z.of_nat (length hints))); Lit " but ";
     Lit "authority maximum hints is set to ";
     Fmt (JInt max_authority_hints); Lit ". ";
     Lit "the following authorities will be ignored: ";
     Fmt (JStr (join ", " (drop (Z.to_nat max_authority_hints) hints)))].

Definition add_events (evs : list event) (st : state) : state :=
  mkState (heap st) (events st ++ evs) (net st).

(** Lines 116-129: the batch of tokens that [get_superiors] fetches. *)
Definition fetched_batch (self : loc) (authority_hints : json)
    (max_authority_hints : Z) : M (list string) :=
  authority_hints ←
    clamp_authority_hints self authority_hints max_authority_hints;
  o ← get_obj self;
  get_entity_statements authority_hints (EC.httpc_params o).

(** Lines 130-139: what [get_superiors] does with the batch. *)
Definition route_batch (self : loc) (jwts : list string)
    : M (gmap key value) :=
  for_each jwts (route_superior self) ;;
  o ← get_obj self;
  ret (EC.verified_superiors o).

(** The key under which the instance built from a token is filed:
    [ec.payload["sub"]]. *)
Definition sub_key (jwt : string) : res key :=
  payload ← unpad_jwt_payload jwt;
  sub ← py_getitem payload "sub";
  hash_key sub.





(** Every instance of [st] is still there in [st'], with the same [part]. *)
Definition keeps {X} (part : EntityConfiguration → X) (st st' : state)
    : Prop :=
  ∀ l o, heap st !! l = Some o →
         ∃ o', heap st' !! l = Some o' ∧ part o' = part o.

(** What [__init__] reads from the token and from its arguments, and the
    one dictionary that no method assigns. *)
Definition constructed_part (o : EntityConfiguration) :=
  (EC.jwt o, EC.header o, EC.payload o, EC.sub o, EC.jwks o, EC.kids o,
   EC.httpc_params o, EC.filter_by_allowed_trust_marks o,
   EC.trust_anchors_entity_confs o, EC.trust_mark_issuers_entity_confs o,
   EC.failed_by_superiors o).

(** From [st] to [st'], the instances other than [self] are as they were,
    and [self] differs at most by its [verified_superiors]. *)
Definition only_verified_superiors (self : loc) (st st' : state) : Prop :=
  ∀ l o, heap st !! l = Some o →
         if decide (l = self)
         then ∃ d, heap st' !! l = Some (EC.set_verified_superiors d o)
         else heap st' !! l = Some o.

(** The warning of lines 121-126 when the hints split at position [n]. *)
Definition clamp_warning (hints : list string) (max_authority_hints : Z)
    (n : nat) : event :=
  EvLog WARNING
    [Lit "Found "; Fmt (JInt (Z.of_nat (length hints))); Lit " but ";
     Lit "authority maximum hints is set to ";
     Fmt (JInt max_authority_hints); Lit ". ";
     Lit "the following authorities will be ignored: ";
     Fmt (JStr (join ", " (drop n hints)))].

(** From [st] to [st'], the instance [self] is still there, its
    [failed_superiors] is as it was, and every entry of its
    [verified_superiors] is as it was or is filed under the [sub] of one of
    the tokens [jwts]. *)
Definition filed_from (self : loc) (jwts : list string) (st st' : state)
    : Prop :=
  ∀ o, heap st !! self = Some o →
       ∃ o',
         heap st' !! self = Some o' ∧
         EC.failed_superiors o' = EC.failed_superiors o ∧
         ∀ k, EC.verified_superiors o' !! k = EC.verified_superiors o !! k ∨
              ∃ jwt, jwt ∈ jwts ∧ sub_key jwt = Ok k.

(** An instance without its trust-mark filter. *)
Definition forget_filter (o : EntityConfiguration) : EntityConfiguration :=
  EC.mk (EC.jwt o) (EC.header o) (EC.payload o) (EC.sub o) (EC.jwks o)
    (EC.kids o) (EC.httpc_params o) (JList [])
    (EC.trust_anchors_entity_confs o) (EC.trust_mark_issuers_entity_confs o)
    (EC.verified_superiors o) (EC.failed_superiors o)
    (EC.verified_by_superiors o) (EC.failed_by_superiors o)
    (EC.invalid_superiors o) (EC.is_valid o).

(** Two states that differ at most by the filters stored in their
    instances. *)
Definition same_but_filter (st1 st2 : state) : Prop :=
  forget_filter <$> heap st1 = forget_filter <$> heap st2 ∧
  events st1 = events st2 ∧
  net st1 = net st2.

(** Two computations that, from states that differ at most by the stored
    filters, return the same value or raise the same exception, and leave
    states that differ at most by the stored filters. *)
Definition alike {A} (m1 m2 : M A) : Prop :=
  ∀ st1 st2,
    same_but_filter st1 st2 →
    (m1 st1).1 = (m2 st2).1 ∧ same_but_filter (m1 st1).2 (m2 st2).2.

(** A computation on which the stored filters have no effect. *)
Definition filter_blind {A} (m : M A) : Prop := alike m m.

End vocabulary.

(** ** A small federation

    One leaf and one trust anchor.  A token is named by its text, the
    decoders are tables, and [verify_jws] accepts a token signed with the
    key it is given, which the table tells by the [kid]. *)
Module Federation.

Definition leaf_sub : string := "https://leaf.example/".
Definition ta_sub : string := "https://ta.example/".
Definition ta_fetch : string := "https://ta.example/fetch".

Definition key_of (kid : string) : json := JObj [("kid", JStr kid)].

Definition head_of (kid : string) : json :=
  JObj [("alg", JStr "RS256"); ("kid", JStr kid)].

Definition leaf_payload : json :=
  JObj [("iss", JStr leaf_sub); ("sub", JStr leaf_sub);
        ("jwks", JList [key_of "k1"]);
        ("authority_hints", JList [JStr ta_sub])].

Definition ta_payload : json :=
  JObj [("iss", JStr ta_sub); ("sub", JStr ta_sub);
        ("jwks", JList [key_of "ta1"]);
        ("metadata",
         JObj [("federation_entity",
                JObj [("federation_api_endpoint", JStr ta_fetch)])])].

(** A second anchor, whose endpoint serves the statement that vouches for
    another key. *)
Definition ta2_payload : json :=
  JObj [("iss", JStr "https://ta2.example/");
        ("sub", JStr "https://ta2.example/");
        ("jwks", JList [key_of "ta1"]);
        ("metadata",
         JObj [("federation_entity",
                JObj [("federation_api_endpoint",
                       JStr "https://ta.example/fetch-otherkey")])])].

(** The anchor of a federation that publishes no fetch endpoint. *)
Definition bare_payload : json :=
  JObj [("iss", JStr "https://bare.example/");
        ("sub", JStr "https://bare.example/");
        ("jwks", JList [key_of "b1"])].

(** A configuration signed with a key it does not publish. *)
Definition rogue_payload : json :=
  JObj [("iss", JStr "https://rogue.example/");
        ("sub", JStr "https://rogue.example/");
        ("jwks", JList [key_of "r1"])].

(** A configuration that points to a remote key set, and one without
    subject. *)
Definition remote_keys_payload : json :=
  JObj [("iss", JStr "https://remote.example/");
        ("sub", JStr "https://remote.example/");
        ("jwks_uri", JStr "https://remote.example/jwks.json")].

Definition anonymous_payload : json :=
  JObj [("iss", JStr "https://anonymous.example/");
        ("jwks", JList [key_of "a1"])].

(** The anchor's statement about the leaf, with the leaf's key. *)
Definition stmt_payload : json :=
  JObj [("iss", JStr ta_sub); ("sub", JStr leaf_sub);
        ("jwks", JList [key_of "k1"])].

(** The same statement vouching for another key. *)
Definition stmt_otherkey_payload : json :=
  JObj [("iss", JStr ta_sub); ("sub", JStr leaf_sub);
        ("jwks", JList [key_of "k2"])].

Definition tokens : list (string * (json * json)) :=
  [("leaf.jwt", (head_of "k1", leaf_payload));
   ("ta.jwt", (head_of "ta1", ta_payload));
   ("ta2.jwt", (head_of "ta1", ta2_payload));
   ("bare.jwt", (head_of "b1", bare_payload));
   ("rogue.jwt", (head_of "r9", rogue_payload));
   ("remote-keys.jwt", (head_of "x1", remote_keys_payload));
   ("anonymous.jwt", (head_of "a1", anonymous_payload));
   ("stmt.jwt", (head_of "ta1", stmt_payload));
   ("stmt-otherkey.jwt", (head_of "ta1", stmt_otherkey_payload))].

Fixpoint decode (jwt : string) (table : list (string * (json * json)))
    : res (json * json) :=
  match table with
  | [] => Err (OtherError "binascii.Error")
  | (name, parts) :: table' =>
      if String.eqb jwt name then Ok parts else decode jwt table'
  end.

Definition pages : list (string * string) :=
  [(ta_sub, "ta.jwt");
   ("https://ta2.example/", "ta2.jwt");
   ("https://bare.example/", "bare.jwt");
   ("https://rogue.example/", "rogue.jwt");
   ("https://broken.example/", "<html>502</html>");
   (ta_fetch, "stmt.jwt");
   ("https://ta.example/fetch-otherkey", "stmt-otherkey.jwt")].

Fixpoint page (url : string) (table : list (string * string)) : res string :=
  match table with
  | [] => Err (OtherError "ClientResponseError")
  | (u, body) :: table' =>
      if String.eqb url u then Ok body else page url table'
  end.

Definition fetch_all (urls : json) : res (list string) :=
  items ← py_iter urls;
  res_mapM (λ url, u ← as_str url; page u pages) items.

#[export] Instance toy : Collaborators := {|
  World := unit;
  http_get := λ urls _ w, (fetch_all urls, w);
  unpad_jwt_head := λ jwt, fst <$> decode jwt tokens;
  unpad_jwt_payload := λ jwt, snd <$> decode jwt tokens;
  verify_jws := λ jws pub_jwk,
    '(head, _) ← decode jws tokens;
    if py_eq (default JNull (claim head "kid"))
             (default JNull (claim pub_jwk "kid"))
    then Ok jws else Err (OtherError "kid error")
|}.

Definition st0 : state := mkState ∅ [] tt.

Definition no_params : json := JObj [].

(** The references of the first two instances of a run from [st0]. *)
Definition leaf : loc := 1%positive.
Definition superior : loc := 2%positive.

(** The leaf, constructed with a trust-mark filter. *)
Definition leaf_st (filter : json) : state :=
  (EntityConfiguration__init__ "leaf.jwt" no_params filter (JList [])
     (JList []) st0).2.

(** The leaf once [get_superiors] has run on the hints [hints]. *)
Definition resolved_st (hints : list string) : state :=
  (get_superiors leaf (JList (JStr <$> hints)) 0 (leaf_st (JList []))).2.

(** A whole resolution of the leaf: construction with a filter,
    self-validation, superiors, statements of the superiors. *)
Definition resolution (filter : json) : M (gmap key value) :=
  self ← EntityConfiguration__init__ "leaf.jwt" no_params filter (JList [])
           (JList []);
  validate_by_itself self ;;
  get_superiors self (JList []) 0 ;;
  validate_by_superiors self [superior].

(** The instance a reference designates in a state of the scenario. *)
Definition instance_at (st : state) (l : loc) : EntityConfiguration :=
  default (EC.mk "" JNull JNull JNull JNull [] JNull JNull JNull JNull
             ∅ ∅ ∅ ∅ None false)
    (heap st !! l).

(** Five hints, as a leaf with five authorities declares them. *)
Definition five_hints : list string :=
  ["https://a.example/"; "https://b.example/"; "https://c.example/";
   "https://d.example/"; "https://e.example/"].

(** A state whose only instance is [o]. *)
Definition lone (o : EntityConfiguration) : state :=
  mkState (<[leaf := o]> ∅) [] tt.

Definition instance_of (jwt : string) (header : json) (jwks : json)
    (kids : list json) (payload : json) (sub : string)
    : EntityConfiguration :=
  EC.mk jwt header payload (JStr sub) jwks kids no_params (JList [])
    (JList []) (JList []) ∅ ∅ ∅ ∅ None false.

(** An instance whose header has no [kid] and whose one key has none. *)
Definition kidless : EntityConfiguration :=
  instance_of "kidless.jwt" (JObj [("alg", JStr "RS256")])
    (JList [JObj [("kty", JStr "RSA")]]) [JNull]
    (JObj [("sub", JStr "https://kidless.example/");
           ("jwks", JList [JObj [("kty", JStr "RSA")]])])
    "https://kidless.example/".

(** An instance whose token the verifier does not accept. *)
Definition forged : EntityConfiguration :=
  instance_of "forged.jwt" (head_of "k1") (JList [key_of "k1"]) [JStr "k1"]
    leaf_payload leaf_sub.

(** The leaf with a superior whose [metadata] claim is a string. *)
Definition odd_payload : json :=
  JObj [("iss", JStr "https://odd.example/");
        ("sub", JStr "https://odd.example/");
        ("jwks", JList [key_of "o1"]);
        ("metadata", JStr "federation_entity")].

Definition odd_st : state :=
  mkState
    (<[superior := instance_of "odd.jwt" (head_of "o1") (JList [key_of "o1"])
                     [JStr "o1"] odd_payload "https://odd.example/"]>
       (heap (leaf_st (JList []))))
    [] tt.

(** The leaf with two superiors, once an [invalid_superiors] dictionary
    has been assigned to it. *)
Definition prepared_st : state :=
  let st := resolved_st ["https://bare.example/"; ta_sub] in
  mkState (alter (EC.set_invalid_superiors ∅) leaf (heap st)) (events st)
    (net st).

(** The federation with one more token: a statement without issuer. *)
Definition stmt_noiss_payload : json :=
  JObj [("sub", JStr leaf_sub); ("jwks", JList [key_of "k1"])].

Definition with_noiss : Collaborators := {|
  World := unit;
  http_get := λ urls _ w, (fetch_all urls, w);
  unpad_jwt_head := λ jwt,
    fst <$> decode jwt
              (("stmt-noiss.jwt", (head_of "ta1", stmt_noiss_payload))
               :: tokens);
  unpad_jwt_payload := λ jwt,
    snd <$> decode jwt
              (("stmt-noiss.jwt", (head_of "ta1", stmt_noiss_payload))
               :: tokens);
  verify_jws := λ jws pub_jwk, Ok jws
|}.

Definition noiss_st : @state with_noiss :=
  (@get_superiors with_noiss leaf (JList []) 0
     (@EntityConfiguration__init__ with_noiss "leaf.jwt" no_params (JList [])
        (JList []) (JList []) (@mkState with_noiss ∅ [] tt)).2).2.

(** The federation with one more page: a mirror that serves the
    configuration of the anchor under another URL. *)
Definition mirror : string := "https://mirror.example/".

Definition with_mirror : Collaborators := {|
  World := unit;
  http_get := λ urls _ w,
    (items ← py_iter urls;
     res_mapM (λ url, u ← as_str url; page u ((mirror, "ta.jwt") :: pages))
       items,
     w);
  unpad_jwt_head := λ jwt, fst <$> decode jwt tokens;
  unpad_jwt_payload := λ jwt, snd <$> decode jwt tokens;
  verify_jws := λ jws pub_jwk,
    '(head, _) ← decode jws tokens;
    if py_eq (default JNull (claim head "kid"))
             (default JNull (claim pub_jwk "kid"))
    then Ok jws else Err (OtherError "kid error")
|}.

Definition mirror_leaf_st : @state with_mirror :=
  (@EntityConfiguration__init__ with_mirror "leaf.jwt" no_params (JList [])
     (JList []) (JList []) (@mkState with_mirror ∅ [] tt)).2.

End Federation.

(** * Properties *)

(** ** Reasoning about computations in [M] *)

Ltac unfold_monad :=
  unfold mbind, M_bind, bind, mret, M_ret, ret, lift, raise,
    res_mbind, res_bind in *.

Ltac msimpl := unfold_monad; simpl in *.

Section monad_facts.
Context `{C : Collaborators}.

Lemma bind_ok {A B} (m : M A) (f : A → M B) st a st' :
  m st = (Ok a, st') → (m ≫= f) st = f a st'.
Proof. intros Hm. unfold_monad. by rewrite Hm. Qed.

Lemma bind_err {A B} (m : M A) (f : A → M B) st e st' :
  m st = (Err e, st') → (m ≫= f) st = (Err e, st').
Proof. intros Hm. unfold_monad. by rewrite Hm. Qed.


Lemma bind_lift_ok {A B} (r : res A) (f : A → M B) st a :
  r = Ok a → (lift r ≫= f) st = f a st.
Proof. by intros ->. Qed.

Lemma bind_lift_err {A B} (r : res A) (f : A → M B) st e :
  r = Err e → (lift r ≫= f) st = (Err e, st).
Proof. by intros ->. Qed.

Lemma get_obj_live l o st :
  heap st !! l = Some o → get_obj l st = (Ok o, st).
Proof. intros Hl. unfold get_obj. by rewrite Hl. Qed.

Lemma modify_obj_live l o f st :
  heap st !! l = Some o →
  modify_obj l f st
  = (Ok tt, mkState (<[l := f o]> (heap st)) (events st) (net st)).
Proof. intros Hl. unfold modify_obj. by rewrite Hl. Qed.

Lemma state_eta st : mkState (heap st) (events st) (net st) = st.
Proof. by destruct st. Qed.


End monad_facts.

(** ** Discovery URLs *)

Lemma last_ascii_append_slash p :
  last (String.list_ascii_of_string (p +:+ "/")) = Some "/"%char.
Proof.
  induction p as [|c p IH]; [done|].
  simpl. destruct (String.list_ascii_of_string (p +:+ "/")); [done|].
  exact IH.
Qed.

Lemma last_ascii_slash s :
  last (String.list_ascii_of_string s) = Some "/"%char → ends_with_slash s.
Proof.
  induction s as [|c s IH]; [done|].
  simpl. destruct s as [|c' s].
  - simpl. intros [= ->]. by exists "".
  - intros Hl. destruct (IH Hl) as [p Hp]. exists (String c p).
    change (String c p +:+ "/") with (String c (p +:+ "/")). by f_equal.
Qed.

Lemma py_last_nonempty s : s ≠ "" → ∃ c, py_last s = Ok c.
Proof.
  intros Hs. unfold py_last.
  destruct (last (String.list_ascii_of_string s)) as [c|] eqn:Hl; [by eexists|].
  apply last_None in Hl. destruct s; [done|]. discriminate Hl.
Qed.

Lemma well_known_url_spec subject :
  subject ≠ "" →
  ∃ url, well_known_url subject = Ok url ∧ discovery_url_of subject url.
Proof.
  intros Hs. destruct (py_last_nonempty subject Hs) as [c Hc].
  unfold well_known_url. rewrite Hc. msimpl.
  eexists. split; [reflexivity|].
  unfold py_last in Hc.
  destruct (last (String.list_ascii_of_string subject)) as [c'|] eqn:Hl;
    [|done].
  injection Hc as ->.
  destruct (Ascii.eqb_spec c "/"%char) as [->|Hne]; simpl.
  - split; [done|]. intros Hn. destruct Hn. by apply last_ascii_slash.
  - split; [|done]. intros [p ->].
    rewrite last_ascii_append_slash in Hl. by injection Hl as <-.
Qed.

Section discovery.
Context `{C : Collaborators}.



End discovery.

(** ** Key-set extraction *)

(** C8 (as amended): [get_jwks] returns the embedded [jwks] claim of a
    payload that has one, and [None], without raising, for a [dict] payload
    that has none, whether or not it declares a [jwks_uri]. *)
Theorem get_jwks_embedded_or_none payload httpc_params :
  (∀ ks, claim payload "jwks" = Some ks →
         get_jwks payload httpc_params = Ok ks) ∧
  (∀ kv, payload = JObj kv → claim payload "jwks" = None →
         get_jwks payload httpc_params = Ok JNull).
Proof.
  split.
  - intros ks Hks. destruct payload; try discriminate Hks.
    unfold get_jwks. simpl in *. by rewrite Hks.
  - intros kv -> Hnone. unfold get_jwks. simpl in *. by rewrite Hnone.
Qed.

(** ** Construction *)

Section construction.
Context `{C : Collaborators}.

Lemma kids_of_null : kids_of JNull = Err TypeError.
Proof. reflexivity. Qed.

(** What [__init__] does, in one equation per outcome. *)
Lemma init_ok_inv jwt hp f ta tmi st self st' :
  EntityConfiguration__init__ jwt hp f ta tmi st = (Ok self, st') →
  ∃ header payload sub jwks kids,
    unpad_jwt_head jwt = Ok header ∧
    unpad_jwt_payload jwt = Ok payload ∧
    py_getitem payload "sub" = Ok sub ∧
    get_jwks payload hp = Ok jwks ∧
    kids_of jwks = Ok kids ∧
    self = fresh (dom (heap st)) ∧
    st' = mkState
            (<[self := EC.mk jwt header payload sub jwks kids hp f ta tmi
                         ∅ ∅ ∅ ∅ None false]> (heap st))
            (events st) (net st).
Proof.
  unfold EntityConfiguration__init__, alloc. unfold_monad.
  destruct (unpad_jwt_head jwt) as [header|]; [|done].
  destruct (unpad_jwt_payload jwt) as [payload|]; [|done].
  destruct (py_getitem payload "sub") as [sub|] eqn:Hsub; [|done].
  destruct (get_jwks payload hp) as [jwks|] eqn:Hjwks; [|done].
  destruct (kids_of jwks) as [kids|] eqn:Hkids; [|done].
  intros [= <- <-]. by exists header, payload, sub, jwks, kids.
Qed.

Lemma init_err_state jwt hp f ta tmi st e st' :
  EntityConfiguration__init__ jwt hp f ta tmi st = (Err e, st') → st' = st.
Proof.
  unfold EntityConfiguration__init__, alloc. unfold_monad.
  destruct (unpad_jwt_head jwt) as [header|]; [|by intros [= _ <-]].
  destruct (unpad_jwt_payload jwt) as [payload|]; [|by intros [= _ <-]].
  destruct (py_getitem payload "sub") as [sub|]; [|by intros [= _ <-]].
  destruct (get_jwks payload hp) as [jwks|]; [|by intros [= _ <-]].
  destruct (kids_of jwks) as [kids|]; [|by intros [= _ <-]].
  done.
Qed.

Lemma fresh_loc_unused (h : gmap loc EntityConfiguration) :
  h !! fresh (dom h) = None.
Proof. apply not_elem_of_dom. apply is_fresh. Qed.

(** C10: a token whose decoded payload has no [sub] or no [jwks] claim
    makes [__init__] raise, and no instance comes to exist; when
    [__init__] returns, the payload has both claims and the new instance
    has its four dictionaries empty and [is_valid] false. *)
Theorem init_requires_sub_and_jwks jwt hp f ta tmi st :
  (∀ payload,
     unpad_jwt_payload jwt = Ok payload →
     claim payload "sub" = None ∨ claim payload "jwks" = None →
     ∃ e, EntityConfiguration__init__ jwt hp f ta tmi st = (Err e, st)) ∧
  (∀ self st',
     EntityConfiguration__init__ jwt hp f ta tmi st = (Ok self, st') →
     ∃ payload o,
       unpad_jwt_payload jwt = Ok payload ∧
       is_Some (claim payload "sub") ∧
       is_Some (claim payload "jwks") ∧
       heap st !! self = None ∧
       heap st' = <[self := o]> (heap st) ∧
       EC.payload o = payload ∧
       EC.verified_superiors o = ∅ ∧
       EC.failed_superiors o = ∅ ∧
       EC.verified_by_superiors o = ∅ ∧
       EC.failed_by_superiors o = ∅ ∧
       EC.is_valid o = false).
Proof.
  split.
  - intros payload Hp Hlack.
    destruct (EntityConfiguration__init__ jwt hp f ta tmi st)
      as [[self|e] st'] eqn:Hrun.
    + exfalso. apply init_ok_inv in Hrun
        as (header & payload' & sub & jwks & kids & _ & Hp' & Hsub & Hjwks
            & Hkids & _).
      rewrite Hp in Hp'. injection Hp' as <-.
      destruct payload as [| | | | |kv]; try discriminate Hsub.
      simpl in *. destruct Hlack as [Hlack|Hlack].
      * by rewrite Hlack in Hsub.
      * unfold get_jwks in Hjwks. simpl in Hjwks. rewrite Hlack in Hjwks.
        injection Hjwks as <-. discriminate Hkids.
    + exists e. by rewrite (init_err_state _ _ _ _ _ _ _ _ Hrun).
  - intros self st' Hrun.
    apply init_ok_inv in Hrun
      as (header & payload & sub & jwks & kids & _ & Hp & Hsub & Hjwks
          & Hkids & -> & ->).
    eexists payload, _. split; [done|].
    destruct payload as [| | | | |kv]; try discriminate Hsub.
    simpl in *.
    split; [by destruct (assoc "sub" kv); [eexists|]|].
    split.
    { unfold get_jwks in Hjwks. simpl in Hjwks.
      destruct (assoc "jwks" kv); [by eexists|].
      injection Hjwks as <-. discriminate Hkids. }
    split; [apply fresh_loc_unused|].
    repeat split; reflexivity.
Qed.

End construction.

(** ** Validation of one instance *)

Section validation.
Context `{C : Collaborators}.

Lemma py_index_in l x i : py_index l x = Ok i → py_in x l = true.
Proof.
  revert i. induction l as [|y l IH]; intros i; simpl; [done|].
  destruct (py_eq y x); [done|].
  destruct (py_index l x) as [j|]; [|done].
  intros _. simpl. by apply (IH j).
Qed.

(** [validate_by_itself] returns [True] or raises: it never returns
    [False].  It raises before any assignment. *)
Lemma validate_by_itself_inv ec st r st' :
  validate_by_itself ec st = (r, st') →
  (∃ e, r = Err e ∧ st' = st) ∨
  (r = Ok true ∧ st' = validated ec st ∧ is_Some (heap st !! ec)).
Proof.
  unfold validate_by_itself, get_obj, modify_obj, validated. unfold_monad.
  destruct (heap st !! ec) as [o|] eqn:Ho; [|intros [= <- <-]; eauto].
  repeat (case_match; simplify_eq; eauto); intros; simplify_eq; eauto.
Qed.

Lemma validate_descendant_statement_inv ec jwt st r st' :
  validate_descendant_statement ec jwt st = (r, st') →
  st' = st ∧ (r = Ok true ∨ ∃ e, r = Err e).
Proof.
  unfold validate_descendant_statement, get_obj. unfold_monad.
  repeat (case_match; simplify_eq; eauto); intros; simplify_eq; eauto.
Qed.

End validation.

(** ** Cross-validation with a superior's statement *)

Section cross_validation.
Context `{C : Collaborators}.

Lemma set_is_valid_id o : EC.set_is_valid (EC.is_valid o) o = o.
Proof. by destruct o. Qed.

Lemma validated_lookup ec st l o :
  heap st !! l = Some o →
  ∃ b, heap (validated ec st) !! l = Some (EC.set_is_valid b o).
Proof.
  intros Hl. unfold validated.
  destruct (heap st !! ec) as [o_ec|] eqn:Hec; simpl.
  - destruct (decide (ec = l)) as [->|Hne].
    + exists true. rewrite lookup_insert_eq. congruence.
    + exists (EC.is_valid o).
      by rewrite lookup_insert_ne, set_is_valid_id.
  - exists (EC.is_valid o). by rewrite set_is_valid_id.
Qed.

Lemma superior_statement_checks_frame self jwt ec payload st r st' :
  superior_statement_checks self jwt ec payload st = (r, st') →
  st' = st ∨ st' = validated ec st.
Proof.
  unfold superior_statement_checks.
  destruct (validate_by_itself ec st) as [r1 st1] eqn:H1.
  apply validate_by_itself_inv in H1 as H1'.
  destruct H1' as [(e & -> & ->)|(-> & -> & _)].
  { rewrite (bind_err _ _ _ _ _ H1). intros [= _ <-]. by left. }
  rewrite (bind_ok _ _ _ _ _ H1).
  destruct (validate_descendant_statement ec jwt (validated ec st))
    as [r2 st2] eqn:H2.
  apply validate_descendant_statement_inv in H2 as H2'.
  destruct H2' as [-> [->|[e ->]]].
  2:{ rewrite (bind_err _ _ _ _ _ H2). intros [= _ <-]. by right. }
  rewrite (bind_ok _ _ _ _ _ H2).
  unfold get_obj. unfold_monad.
  repeat (case_match; simplify_eq; eauto); intros; simplify_eq; eauto.
Qed.

(** When the checks pass, the key set embedded in the statement has the
    [kid] of the subject's own header. *)
Lemma superior_statement_checks_ok self jwt ec payload st st' o :
  heap st !! self = Some o →
  superior_statement_checks self jwt ec payload st = (Ok tt, st') →
  ∃ kid jwks kids,
    py_getitem (EC.header o) "kid" = Ok kid ∧
    get_jwks payload (EC.httpc_params o) = Ok jwks ∧
    kids_of jwks = Ok kids ∧
    py_in kid kids = true.
Proof.
  intros Hself. unfold superior_statement_checks.
  destruct (validate_by_itself ec st) as [r1 st1] eqn:H1.
  apply validate_by_itself_inv in H1 as H1'.
  destruct H1' as [(e & -> & ->)|(-> & -> & _)].
  { by rewrite (bind_err _ _ _ _ _ H1). }
  rewrite (bind_ok _ _ _ _ _ H1).
  destruct (validate_descendant_statement ec jwt (validated ec st))
    as [r2 st2] eqn:H2.
  apply validate_descendant_statement_inv in H2 as H2'.
  destruct H2' as [-> [->|[e ->]]].
  2:{ by rewrite (bind_err _ _ _ _ _ H2). }
  rewrite (bind_ok _ _ _ _ _ H2).
  destruct (validated_lookup ec st self o Hself) as [b Hb].
  rewrite (bind_ok _ _ _ _ _ (get_obj_live _ _ _ Hb)).
  replace (EC.httpc_params (EC.set_is_valid b o)) with (EC.httpc_params o)
    by by destruct o.
  replace (EC.header (EC.set_is_valid b o)) with (EC.header o)
    by by destruct o.
  unfold_monad.
  destruct (get_jwks payload (EC.httpc_params o)) as [jwks|]; [|done].
  destruct (kids_of jwks) as [kids|] eqn:Hkids; [|done].
  destruct (py_getitem (EC.header o) "kid") as [kid|]; [|done].
  destruct (py_index kids kid) as [i|] eqn:Hi; [|done].
  intros _. exists kid, jwks, kids. eauto using py_index_in.
Qed.

(** The locals after the [try] statement, when the payload decodes. *)
Lemma superior_statement_try_decoded self jwt ec st o payload :
  heap st !! self = Some o →
  unpad_jwt_payload jwt = Ok payload →
  ∃ ok st1 b,
    superior_statement_try self jwt ec st = (Ok (Some payload, ok), st1) ∧
    heap st1 !! self = Some (EC.set_is_valid b o) ∧
    (ok = true →
     ∃ kid jwks kids,
       py_getitem (EC.header o) "kid" = Ok kid ∧
       get_jwks payload (EC.httpc_params o) = Ok jwks ∧
       kids_of jwks = Ok kids ∧
       py_in kid kids = true).
Proof.
  intros Hself Hp. unfold superior_statement_try. rewrite Hp.
  unfold try_except.
  destruct (superior_statement_checks self jwt ec payload st)
    as [r st1] eqn:Hchk.
  assert (∃ b, heap st1 !! self = Some (EC.set_is_valid b o)) as [b Hb].
  { apply superior_statement_checks_frame in Hchk as [->| ->].
    - exists (EC.is_valid o). by rewrite set_is_valid_id.
    - by apply validated_lookup. }
  destruct r as [[]|e].
  - rewrite (bind_ok _ _ _ _ _ Hchk). exists true, st1, b.
    split; [done|]. split; [done|]. intros _.
    by apply (superior_statement_checks_ok self jwt ec payload st st1).
  - rewrite (bind_err _ _ _ _ _ Hchk). exists false, st1, b.
    split; [done|]. split; [done|]. done.
Qed.

Lemma superior_statement_undecoded self jwt ec st o e :
  heap st !! self = Some o →
  unpad_jwt_payload jwt = Err e →
  validate_by_superior_statement self jwt ec st
  = (Err (UnboundLocalError "payload"), st).
Proof.
  intros Hself Hp. unfold validate_by_superior_statement.
  unfold superior_statement_try. rewrite Hp.
  unfold get_obj. unfold_monad. by rewrite Hself.
Qed.

(** C1: when [unpad_jwt_payload] raises on the statement, the handler sets
    [is_valid] to false and the assignment [target[payload["iss"]] = payload]
    then raises [UnboundLocalError]: an exception leaves the call. *)
Theorem validate_by_superior_statement_unbound_payload
    self jwt ec st o e :
  heap st !! self = Some o →
  unpad_jwt_payload jwt = Err e →
  validate_by_superior_statement self jwt ec st
  = (Err (UnboundLocalError "payload"), st).
Proof. apply superior_statement_undecoded. Qed.

(** C2: whenever [validate_by_superior_statement] returns, it has stored
    the statement's payload under the statement's issuer in
    [verified_superiors] (outcome true) or [failed_superiors] (outcome
    false), and [verified_by_superiors] and [failed_by_superiors] are as
    they were. *)
Theorem validate_by_superior_statement_records_in_superiors
    self jwt ec st o outcome st' :
  heap st !! self = Some o →
  validate_by_superior_statement self jwt ec st = (Ok outcome, st') →
  ∃ payload iss k o',
    unpad_jwt_payload jwt = Ok payload ∧
    py_getitem payload "iss" = Ok iss ∧
    hash_key iss = Ok k ∧
    heap st' !! self = Some o' ∧
    EC.verified_by_superiors o' = EC.verified_by_superiors o ∧
    EC.failed_by_superiors o' = EC.failed_by_superiors o ∧
    if outcome then
      EC.verified_superiors o'
      = <[k := VJson payload]> (EC.verified_superiors o) ∧
      EC.failed_superiors o' = EC.failed_superiors o
    else
      EC.failed_superiors o'
      = <[k := VJson payload]> (EC.failed_superiors o) ∧
      EC.verified_superiors o' = EC.verified_superiors o.
Proof.
  intros Hself Hrun.
  destruct (unpad_jwt_payload jwt) as [payload|e] eqn:Hp.
  2:{ by rewrite (superior_statement_undecoded _ _ _ _ _ _ Hself Hp)
        in Hrun. }
  destruct (superior_statement_try_decoded self jwt ec st o payload
              Hself Hp) as (ok & st1 & b & Htry & Hb & _).
  unfold validate_by_superior_statement in Hrun.
  rewrite (bind_ok _ _ _ _ _ Htry) in Hrun.
  rewrite (bind_ok _ _ _ _ _ (get_obj_live _ _ _ Hb)) in Hrun.
  unfold_monad.
  destruct (py_getitem payload "iss") as [iss|] eqn:Hiss; [|done].
  destruct (hash_key iss) as [k|] eqn:Hk; [|done].
  rewrite (modify_obj_live _ _ _ _ Hb) in Hrun.
  injection Hrun as <- <-.
  exists payload, iss, k. eexists. simpl.
  split; [done|]. split; [done|]. split; [done|].
  split; [apply lookup_insert_eq|].
  by destruct ok, o.
Qed.

(** C6: a statement that decodes and declares a hashable issuer, and whose
    embedded key set does not hold the [kid] of the subject's header, makes
    [validate_by_superior_statement] return [False]; no exception leaves
    the call. *)
Theorem validate_by_superior_statement_foreign_key_set
    self jwt ec st o payload iss k :
  heap st !! self = Some o →
  unpad_jwt_payload jwt = Ok payload →
  claim payload "iss" = Some iss →
  hash_key iss = Ok k →
  (∀ kid jwks kids,
     claim (EC.header o) "kid" = Some kid →
     get_jwks payload (EC.httpc_params o) = Ok jwks →
     kids_of jwks = Ok kids →
     py_in kid kids = false) →
  ∃ st', validate_by_superior_statement self jwt ec st = (Ok false, st').
Proof.
  intros Hself Hp Hiss Hk Hforeign.
  destruct (superior_statement_try_decoded self jwt ec st o payload
              Hself Hp) as (ok & st1 & b & Htry & Hb & Hok).
  assert (ok = false) as ->.
  { destruct ok; [|done].
    destruct (Hok eq_refl) as (kid & jwks & kids & Hkid & Hjwks & Hkids
                               & Hin).
    rewrite (Hforeign kid jwks kids) in Hin; [done| |done|done].
    destruct (EC.header o); try discriminate Hkid. simpl in *.
    by destruct (assoc "kid" kv); simplify_eq. }
  unfold validate_by_superior_statement.
  rewrite (bind_ok _ _ _ _ _ Htry).
  rewrite (bind_ok _ _ _ _ _ (get_obj_live _ _ _ Hb)).
  destruct payload as [| | | | |kv]; try discriminate Hiss.
  unfold_monad. simpl in *. rewrite Hiss, Hk.
  rewrite (modify_obj_live _ _ _ _ Hb). eauto.
Qed.

End cross_validation.

(** ** Superiors without a fetch endpoint *)

Section unreachable_superior.
Context `{C : Collaborators}.

(** A payload without the [metadata] section, without [federation_entity]
    in it, or without the endpoint there, makes the subscript chain raise
    [KeyError]. *)
Lemma federation_api_endpoint_missing kv :
  claim (JObj kv) "metadata" = None ∨
  (∃ mv, claim (JObj kv) "metadata" = Some (JObj mv) ∧
         (claim (JObj mv) "federation_entity" = None ∨
          ∃ fv, claim (JObj mv) "federation_entity" = Some (JObj fv) ∧
                claim (JObj fv) "federation_api_endpoint" = None)) →
  federation_api_endpoint (JObj kv) = Err KeyError.
Proof.
  unfold federation_api_endpoint. unfold_monad. simpl.
  intros [Hm|(mv & Hm & [Hf|(fv & Hf & He)])]; rewrite Hm; simpl;
    [done| |]; rewrite Hf; simpl; [done|]. by rewrite He.
Qed.

(** C3: on an instance as [__init__] leaves it, which has no
    [invalid_superiors] attribute, a superior whose payload has no fetch
    endpoint makes [validate_by_superiors] raise [AttributeError] after the
    warning: the superior is recorded nowhere and the superiors after it
    are not processed. *)
Theorem validate_by_superiors_missing_endpoint self ec rest st o o_ec :
  heap st !! self = Some o →
  heap st !! ec = Some o_ec →
  federation_api_endpoint (EC.payload o_ec) = Err KeyError →
  EC.invalid_superiors o = None →
  validate_by_superiors self (ec :: rest) st
  = (Err AttributeError,
     mkState (heap st) (events st ++ [missing_endpoint_warning o o_ec])
       (net st)).
Proof.
  intros Hself Hec Hmiss Hattr.
  unfold validate_by_superiors. simpl.
  unfold validate_by_superior, get_obj, logger, emit. unfold_monad.
  by rewrite Hec, Hmiss, Hself, Hattr.
Qed.

(** No run of [__init__] creates the attribute. *)
Lemma init_leaves_invalid_superiors_unset jwt hp f ta tmi st self st' o :
  EntityConfiguration__init__ jwt hp f ta tmi st = (Ok self, st') →
  heap st' !! self = Some o →
  EC.invalid_superiors o = None.
Proof.
  intros Hrun Ho. apply init_ok_inv in Hrun
    as (header & payload & sub & jwks & kids & _ & _ & _ & _ & _ & _ & ->).
  simpl in Ho. rewrite lookup_insert_eq in Ho. by injection Ho as <-.
Qed.

End unreachable_superior.

(** ** What a computation leaves unchanged *)

Section preservation.
Context `{C : Collaborators}.
Variable P : state → state → Prop.
Hypothesis P_refl : ∀ st, P st st.
Hypothesis P_trans : ∀ st1 st2 st3, P st1 st2 → P st2 st3 → P st1 st3.

Lemma preserves_ret {A} (a : A) : preserves P (ret a).
Proof. intros st. apply P_refl. Qed.

Lemma preserves_mret {A} (a : A) : preserves P (mret a).
Proof. intros st. apply P_refl. Qed.

Lemma preserves_raise {A} e : preserves P (@raise _ A e).
Proof. intros st. apply P_refl. Qed.

Lemma preserves_lift {A} (r : res A) : preserves P (lift r).
Proof. intros st. apply P_refl. Qed.

Lemma preserves_get_obj l : preserves P (get_obj l).
Proof. intros st. unfold get_obj. case_match; apply P_refl. Qed.

Lemma preserves_bind {A B} (m : M A) (f : A → M B) :
  preserves P m → (∀ a, preserves P (f a)) → preserves P (m ≫= f).
Proof.
  intros Hm Hf st. unfold_monad. specialize (Hm st).
  destruct (m st) as [[a|e] st1]; simpl in *; [|done].
  eapply P_trans; [exact Hm|]. apply Hf.
Qed.

Lemma preserves_for_each {A} (l : list A) (body : A → M unit) :
  (∀ x, preserves P (body x)) → preserves P (for_each l body).
Proof.
  intros Hbody. induction l as [|x l IH]; simpl.
  - apply preserves_ret.
  - apply preserves_bind; [apply Hbody|]. intros _. apply IH.
Qed.

Lemma preserves_try_except {A} (body : M A) (handler : exn → M A) :
  preserves P body → (∀ e, preserves P (handler e)) →
  preserves P (try_except body handler).
Proof.
  intros Hb Hh st. unfold try_except. specialize (Hb st).
  destruct (body st) as [[a|e] st1]; simpl in *; [done|].
  eapply P_trans; [exact Hb|]. apply Hh.
Qed.

End preservation.

(** One step of a proof of [preserves P m], for [P] reflexive by [Hrefl] and
    transitive by [Htrans]. *)
Ltac preserves_step Hrefl Htrans :=
  first
    [ apply (preserves_ret _ Hrefl)
    | apply (preserves_mret _ Hrefl)
    | apply (preserves_raise _ Hrefl)
    | apply (preserves_lift _ Hrefl)
    | apply (preserves_get_obj _ Hrefl)
    | apply (preserves_for_each _ Hrefl Htrans); intros ?
    | apply (preserves_try_except _ Htrans); [|intros ?]
    | apply (preserves_bind _ Htrans); [|intros ?] ].

(** ** Truncation of the authority hints *)

Section truncation.
Context `{C : Collaborators}.

Lemma quiet_refl st : quiet st st.
Proof. done. Qed.

Lemma quiet_trans st1 st2 st3 : quiet st1 st2 → quiet st2 st3 → quiet st1 st3.
Proof. unfold quiet. congruence. Qed.

Lemma quiet_modify_obj l f : preserves quiet (modify_obj l f).
Proof. intros st. unfold modify_obj. by case_match. Qed.

Lemma quiet_alloc o : preserves quiet (alloc o).
Proof. by intros st. Qed.

Lemma quiet_validate_by_itself ec : preserves quiet (validate_by_itself ec).
Proof.
  intros st. destruct (validate_by_itself ec st) as [r st'] eqn:Hrun.
  apply validate_by_itself_inv in Hrun as [(e & -> & ->)|(-> & -> & _)];
    simpl; [done|].
  unfold validated. by case_match.
Qed.

Ltac quiet_tac :=
  repeat first
    [ apply quiet_modify_obj
    | apply quiet_alloc
    | apply quiet_validate_by_itself
    | preserves_step quiet_refl quiet_trans ].

Lemma quiet_init jwt hp f ta tmi :
  preserves quiet (EntityConfiguration__init__ jwt hp f ta tmi).
Proof. unfold EntityConfiguration__init__. quiet_tac. Qed.

Lemma quiet_route_superior self jwt :
  preserves quiet (route_superior self jwt).
Proof. unfold route_superior. quiet_tac. Qed.

(** *** Lists of strings as Python sees them *)

Lemma py_eq_cons x l y m :
  py_eq (JList (x :: l)) (JList (y :: m))
  = py_eq x y && py_eq (JList l) (JList m).
Proof. reflexivity. Qed.

Lemma py_eq_str_list l : ∀ m,
  py_eq (JList (JStr <$> l)) (JList (JStr <$> m)) = bool_decide (l = m).
Proof.
  induction l as [|x l IH]; intros [|y m]; try done.
  rewrite !fmap_cons, py_eq_cons, IH.
  change (py_eq (JStr x) (JStr y)) with (String.eqb x y).
  destruct (String.eqb_spec x y) as [->|Hne]; simpl.
  - destruct (decide (l = m)) as [->|Hlm].
    + by rewrite !bool_decide_eq_true_2.
    + rewrite !bool_decide_eq_false_2; [done|congruence|done].
  - rewrite bool_decide_eq_false_2; [done|congruence].
Qed.

Lemma res_mapM_as_str l : res_mapM as_str (JStr <$> l) = Ok l.
Proof.
  induction l as [|x l IH]; [done|].
  rewrite fmap_cons. cbn [res_mapM as_str]. by rewrite IH.
Qed.

Lemma py_join_str_list sep l :
  py_join sep (JList (JStr <$> l)) = Ok (join sep l).
Proof.
  unfold py_join, py_iter. unfold mbind, res_mbind, res_bind.
  by rewrite res_mapM_as_str.
Qed.

Lemma take_all_iff {A} (l : list A) n : take n l = l ↔ (length l ≤ n)%nat.
Proof.
  split; [|apply take_ge].
  intros Heq. apply (f_equal length) in Heq.
  rewrite length_take in Heq. lia.
Qed.

(** *** The events of a run *)

Lemma for_each_statement_request items : ∀ st,
  for_each items (λ url,
      logger INFO [Lit "Starting Entity Statement Request for "; Fmt url]) st
  = (Ok tt, add_events (statement_request <$> items) st).
Proof.
  induction items as [|url items IH]; intros st; simpl.
  - unfold ret, add_events. simpl. by rewrite app_nil_r, state_eta.
  - unfold logger, emit. unfold_monad. rewrite IH.
    unfold add_events. simpl. by rewrite <- app_assoc.
Qed.

Lemma get_entity_statements_list items hp st :
  get_entity_statements (JList items) hp st
  = run_http_get (JList items) hp
      (add_events (statement_request <$> items) st).
Proof.
  unfold get_entity_statements. simpl.
  unfold lift at 1. unfold mbind at 1, M_bind, bind at 1.
  unfold mbind, M_bind, bind. by rewrite for_each_statement_request.
Qed.

Lemma clamp_truncates self o st arg hints max :
  heap st !! self = Some o →
  effective_authority_hints o arg = Ok (JList (JStr <$> hints)) →
  0 < max < Z.of_nat (length hints) →
  clamp_authority_hints self arg max st
  = (Ok (JList (JStr <$> take (Z.to_nat max) hints)),
     add_events [ignored_warning hints max] st).
Proof.
  intros Hself Heff Hmax. unfold clamp_authority_hints.
  rewrite (bind_ok _ _ _ _ _ (get_obj_live _ _ _ Hself)).
  rewrite Heff. unfold logger, emit. unfold_monad. cbv beta iota.
  destruct (Z.eqb_spec max 0) as [->|_]; [lia|]. cbn [negb].
  unfold py_slice_to, py_slice_from, py_len, slice_bound.
  destruct (Z.ltb_spec max 0) as [?|_]; [lia|].
  rewrite <- fmap_take, <- fmap_drop, py_eq_str_list, length_fmap.
  rewrite bool_decide_eq_false_2.
  2:{ intros Heq. symmetry in Heq. apply take_all_iff in Heq. lia. }
  cbn [negb]. by rewrite py_join_str_list.
Qed.

Lemma clamp_keeps self o st arg hints max :
  heap st !! self = Some o →
  effective_authority_hints o arg = Ok (JList (JStr <$> hints)) →
  max = 0 ∨ Z.of_nat (length hints) ≤ max →
  clamp_authority_hints self arg max st
  = (Ok (JList (JStr <$> hints)), st).
Proof.
  intros Hself Heff Hmax. unfold clamp_authority_hints.
  rewrite (bind_ok _ _ _ _ _ (get_obj_live _ _ _ Hself)).
  rewrite Heff. unfold_monad. cbv beta iota.
  destruct (Z.eqb_spec max 0) as [->|Hnz]; [done|]. cbn [negb].
  destruct Hmax as [?|Hmax]; [done|].
  unfold py_slice_to, slice_bound.
  destruct (Z.ltb_spec max 0) as [?|_]; [lia|].
  rewrite <- fmap_take, py_eq_str_list.
  rewrite bool_decide_eq_true_2; [done|].
  symmetry. apply take_all_iff. lia.
Qed.

(** The events of [get_superiors] once the hints to fetch are known: one
    record per hint and one batch of requests; the loop adds none. *)
Lemma get_superiors_events self arg max st items st1 o1 :
  clamp_authority_hints self arg max st = (Ok (JList items), st1) →
  heap st1 !! self = Some o1 →
  events (get_superiors self arg max st).2
  = events st1 ++ (statement_request <$> items)
    ++ [EvHttpGet (JList items) (EC.httpc_params o1)].
Proof.
  intros Hclamp Hself. unfold get_superiors.
  rewrite (bind_ok _ _ _ _ _ Hclamp).
  rewrite (bind_ok _ _ _ _ _ (get_obj_live _ _ _ Hself)).
  set (rest := λ jwts : list string,
         for_each jwts (route_superior self) ;;
         o ← get_obj self; ret (EC.verified_superiors o)).
  assert (∀ jwts, preserves quiet (rest jwts)) as Hrest.
  { intros jwts. unfold rest.
    repeat first [ apply quiet_route_superior
                 | preserves_step quiet_refl quiet_trans ]. }
  change (events ((get_entity_statements (JList items)
                     (EC.httpc_params o1) ≫= rest) st1).2 = 
          events st1 ++ (statement_request <$> items)
          ++ [EvHttpGet (JList items) (EC.httpc_params o1)]).
  unfold mbind, M_bind, bind. rewrite get_entity_statements_list.
  unfold run_http_get. simpl.
  destruct (http_get (JList items) (EC.httpc_params o1) (net st1))
    as [[jwts|e] w]; simpl.
  - rewrite (Hrest jwts _). simpl. by rewrite <- app_assoc.
  - by rewrite <- app_assoc.
Qed.

End truncation.

(** ** Routing the fetched superiors *)

Section routing.
Context `{C : Collaborators}.

Lemma get_superiors_split self arg max st :
  get_superiors self arg max st
  = (fetched_batch self arg max ≫= route_batch self) st.
Proof.
  unfold get_superiors, fetched_batch, route_batch. unfold_monad.
  destruct (clamp_authority_hints self arg max st) as [[hints|e] st1];
    [|done].
  destruct (get_obj self st1) as [[o|e] st2]; [|done].
  by destruct (get_entity_statements hints (EC.httpc_params o) st2)
    as [[jwts|e] st3].
Qed.





Lemma fetched_batch_heap self arg max st :
  heap (fetched_batch self arg max st).2 = heap st.
Proof.
  set (P := λ st st' : state, heap st' = heap st).
  assert (∀ st, P st st) as Hrefl by done.
  assert (∀ s1 s2 s3, P s1 s2 → P s2 s3 → P s1 s3) as Htrans
    by (unfold P; congruence).
  assert (∀ lv msg, preserves P (logger lv msg)) as Hlog by done.
  assert (∀ urls hp, preserves P (run_http_get urls hp)) as Hget.
  { intros urls hp s. unfold run_http_get. by case_match. }
  change (P st (fetched_batch self arg max st).2).
  revert st. change (preserves P (fetched_batch self arg max)).
  unfold fetched_batch, clamp_authority_hints, get_entity_statements.
  repeat first [ apply Hlog | apply Hget | preserves_step Hrefl Htrans
               | case_match ].
Qed.


End routing.

(** ** The truncation law *)

Section truncation_law.
Context `{C : Collaborators}.

Lemma filed_from_refl self jwts st : filed_from self jwts st st.
Proof. intros o Ho. exists o. split; [done|]. split; [done|]. by left. Qed.

Lemma filed_from_trans self jwts st1 st2 st3 :
  filed_from self jwts st1 st2 → filed_from self jwts st2 st3 →
  filed_from self jwts st1 st3.
Proof.
  intros H12 H23 o Ho.
  destruct (H12 o Ho) as (o2 & Ho2 & Hf2 & Hk2).
  destruct (H23 o2 Ho2) as (o3 & Ho3 & Hf3 & Hk3).
  exists o3. split; [done|]. split; [congruence|].
  intros k. destruct (Hk3 k) as [Heq|?]; [|by right].
  rewrite Heq. apply Hk2.
Qed.

Lemma filed_from_mono self jwts jwts' st st' :
  (∀ jwt, jwt ∈ jwts → jwt ∈ jwts') →
  filed_from self jwts st st' → filed_from self jwts' st st'.
Proof.
  intros Hsub H o Ho. destruct (H o Ho) as (o' & Ho' & Hf & Hk).
  exists o'. split; [done|]. split; [done|].
  intros k. destruct (Hk k) as [?|(jwt & Hin & Hkey)]; [by left|].
  right. exists jwt. auto.
Qed.

Lemma filed_from_heap self jwts st st' :
  heap st' = heap st → filed_from self jwts st st'.
Proof.
  intros Hheap o Ho. exists o. rewrite Hheap.
  split; [done|]. split; [done|]. by left.
Qed.

Lemma route_superior_filed_from self jwt st :
  filed_from self [jwt] st (route_superior self jwt st).2.
Proof.
  unfold route_superior.
  destruct (heap st !! self) as [o|] eqn:Hself.
  2:{ unfold get_obj. unfold_monad. rewrite Hself. apply filed_from_refl. }
  rewrite (bind_ok _ _ _ _ _ (get_obj_live _ _ _ Hself)).
  destruct (EntityConfiguration__init__ jwt (EC.httpc_params o) (JList [])
              (JList []) (JList []) st) as [[l|e] st1] eqn:Hinit.
  2:{ rewrite (bind_err _ _ _ _ _ Hinit).
      apply init_err_state in Hinit as ->. apply filed_from_refl. }
  rewrite (bind_ok _ _ _ _ _ Hinit).
  apply init_ok_inv in Hinit
    as (header & payload & sub & jwks & kids & _ & Hp & Hsub & _ & _ & ->
        & ->).
  set (l := fresh (dom (heap st))) in *.
  assert (heap st !! l = None) as Hfresh by apply fresh_loc_unused.
  assert (l ≠ self) as Hne by congruence.
  set (o_l := EC.mk _ _ _ _ _ _ _ _ _ _ _ _ _ _ _ _).
  set (st1 := mkState _ _ _).
  assert (∀ x, <[l := x]> (heap st) !! self = Some o) as Hold.
  { intros x. by rewrite lookup_insert_ne. }
  assert (∀ x, filed_from self [jwt] st
                 (mkState (<[l := x]> (heap st)) (events st) (net st)))
    as Hgrow.
  { intros x o' Ho'. rewrite Hself in Ho'. injection Ho' as <-.
    exists o. cbn [heap]. rewrite Hold.
    split; [done|]. split; [done|]. by left. }
  destruct (validate_by_itself l st1) as [r st2] eqn:Hv.
  destruct (validate_by_itself_inv _ _ _ _ Hv)
    as [(e & -> & ->)|(-> & -> & _)].
  { rewrite (bind_err _ _ _ _ _ Hv). apply Hgrow. }
  rewrite (bind_ok _ _ _ _ _ Hv).
  unfold validated, st1. cbn [heap events net].
  rewrite lookup_insert_eq, insert_insert_eq.
  set (st2 := mkState _ _ _).
  assert (heap st2 !! l = Some (EC.set_is_valid true o_l)) as Hl
    by apply lookup_insert_eq.
  assert (heap st2 !! self = Some o) as Hself2 by apply Hold.
  rewrite (bind_ok _ _ _ _ _ (get_obj_live _ _ _ Hl)).
  cbn [EC.payload EC.set_is_valid o_l].
  rewrite (bind_lift_ok _ _ _ _ Hsub).
  destruct (hash_key sub) as [k|e] eqn:Hk.
  2:{ rewrite (bind_lift_err _ _ _ e eq_refl). apply Hgrow. }
  rewrite (bind_lift_ok _ _ _ k eq_refl).
  rewrite (modify_obj_live _ _ _ _ Hself2).
  intros o' Ho'. rewrite Hself in Ho'. injection Ho' as <-.
  eexists. cbn [snd heap]. rewrite lookup_insert_eq.
  split; [done|]. split; [by destruct o|].
  intros k'. destruct o; cbn.
  destruct (decide (k = k')) as [<-|Hkk].
  - right. exists jwt. split; [by apply list_elem_of_singleton|].
    unfold sub_key. rewrite Hp. unfold_monad. by rewrite Hsub.
  - left. by rewrite lookup_insert_ne.
Qed.

Lemma route_batch_filed_from self jwts : ∀ st,
  filed_from self jwts st (for_each jwts (route_superior self) st).2.
Proof.
  induction jwts as [|jwt jwts IH]; intros st; [apply filed_from_refl|].
  simpl. unfold mbind, M_bind, bind.
  pose proof (route_superior_filed_from self jwt st) as Hstep.
  destruct (route_superior self jwt st) as [[[]|e] st1]; simpl in *.
  - eapply filed_from_trans.
    + eapply filed_from_mono; [|exact Hstep].
      intros x Hx. apply list_elem_of_singleton in Hx as ->. by left.
    + eapply filed_from_mono; [|apply IH]. intros x Hx. by right.
  - eapply filed_from_mono; [|exact Hstep].
    intros x Hx. apply list_elem_of_singleton in Hx as ->. by left.
Qed.

(** What a call of [get_superiors] files, once the hints to fetch are
    known: entries under the [sub] of the tokens that the one batch
    returns, in [verified_superiors] only. *)
Lemma get_superiors_filed self arg max st items st1 o1 :
  clamp_authority_hints self arg max st = (Ok (JList items), st1) →
  heap st1 = heap st →
  heap st1 !! self = Some o1 →
  ∀ o, heap st !! self = Some o →
       ∃ o',
         heap (get_superiors self arg max st).2 !! self = Some o' ∧
         EC.failed_superiors o' = EC.failed_superiors o ∧
         ∀ k, EC.verified_superiors o' !! k = EC.verified_superiors o !! k ∨
              ∃ jwts jwt,
                (http_get (JList items) (EC.httpc_params o1) (net st1)).1
                = Ok jwts ∧
                jwt ∈ jwts ∧ sub_key jwt = Ok k.
Proof.
  intros Hclamp Hheap Hself o Ho.
  assert (o1 = o) as -> by (rewrite Hheap in Hself; congruence).
  unfold get_superiors.
  rewrite (bind_ok _ _ _ _ _ Hclamp).
  rewrite (bind_ok _ _ _ _ _ (get_obj_live _ _ _ Hself)).
  unfold mbind at 1, M_bind, bind at 1.
  rewrite get_entity_statements_list. unfold run_http_get.
  cbn [net add_events].
  destruct (http_get (JList items) (EC.httpc_params o) (net st1))
    as [[jwts|e] w]; cbn [fst].
  2:{ exists o. cbn [snd heap add_events].
      split; [done|]. split; [done|]. by left. }
  set (st2 := mkState _ _ _).
  assert (heap st2 !! self = Some o) as Hself2 by done.
  pose proof (route_batch_filed_from self jwts st2 o Hself2)
    as (o' & Ho' & Hf & Hk).
  exists o'. split.
  - unfold mbind, M_bind, bind.
    destruct (for_each jwts (route_superior self) st2) as [[[]|e] st3];
      cbn [snd] in *; [|done].
    unfold get_obj. rewrite Ho'. done.
  - split; [done|]. intros k.
    destruct (Hk k) as [?|(jwt & Hin & Hkey)]; [by left|].
    right. by exists jwts, jwt.
Qed.

(** C5 (as amended): with a limit [max_authority_hints > 0] and more hints
    than the limit, [get_superiors] logs the warning that names the hints
    past the limit, then requests the first [max_authority_hints] hints, in
    their order, in one batch, and makes no other request; the call is the
    call on the kept hints but for the warning; [failed_superiors] is as it
    was, and an entry of [verified_superiors] is as it was or is filed under
    the [sub] of a token that the batch of the kept hints returned.  With a
    limit of 0, or no more hints than the limit, every hint is requested
    and no warning is logged. *)
Theorem get_superiors_truncation self o st arg hints max :
  heap st !! self = Some o →
  effective_authority_hints o arg = Ok (JList (JStr <$> hints)) →
  let kept := take (Z.to_nat max) hints in
  (0 < max < Z.of_nat (length hints) →
     events (get_superiors self arg max st).2
     = events st ++ [ignored_warning hints max]
       ++ (statement_request <$> (JStr <$> kept))
       ++ [EvHttpGet (JList (JStr <$> kept)) (EC.httpc_params o)] ∧
     get_superiors self arg max st
     = get_superiors self (JList (JStr <$> kept)) max
         (add_events [ignored_warning hints max] st) ∧
     ∃ o',
       heap (get_superiors self arg max st).2 !! self = Some o' ∧
       EC.failed_superiors o' = EC.failed_superiors o ∧
       ∀ k, EC.verified_superiors o' !! k = EC.verified_superiors o !! k ∨
            ∃ jwts jwt,
              (http_get (JList (JStr <$> kept)) (EC.httpc_params o)
                 (net st)).1 = Ok jwts ∧
              jwt ∈ jwts ∧ sub_key jwt = Ok k) ∧
  (max = 0 ∨ Z.of_nat (length hints) ≤ max →
     events (get_superiors self arg max st).2
     = events st ++ (statement_request <$> (JStr <$> hints))
       ++ [EvHttpGet (JList (JStr <$> hints)) (EC.httpc_params o)]).
Proof.
  intros Hself Heff kept. split.
  - intros Hmax.
    pose proof (clamp_truncates self o st arg hints max Hself Heff Hmax)
      as Hclamp.
    split; [|split].
    + rewrite (get_superiors_events _ _ _ _ _ _ o Hclamp); [|done].
      simpl. by rewrite <- app_assoc.
    + assert (clamp_authority_hints self (JList (JStr <$> kept)) max
                (add_events [ignored_warning hints max] st)
              = (Ok (JList (JStr <$> kept)),
                 add_events [ignored_warning hints max] st)) as Hkept.
      { apply (clamp_keeps self o); [done| |].
        - unfold effective_authority_hints, kept.
          destruct hints as [|h hints]; [simpl in Hmax; lia|].
          destruct (Z.to_nat max) eqn:Hn; [lia|]. done.
        - right. unfold kept. rewrite length_take. lia. }
      unfold get_superiors.
      by rewrite (bind_ok _ _ _ _ _ Hclamp), (bind_ok _ _ _ _ _ Hkept).
    + by apply (get_superiors_filed self arg max st _ _ o Hclamp).
  - intros Hmax.
    pose proof (clamp_keeps self o st arg hints max Hself Heff Hmax)
      as Hclamp.
    by rewrite (get_superiors_events _ _ _ _ _ _ o Hclamp).
Qed.

End truncation_law.

(** ** The trust-mark filter *)

Section filter_independence.
Context `{C : Collaborators}.

Lemma same_but_filter_lookup st1 st2 l :
  same_but_filter st1 st2 →
  forget_filter <$> (heap st1 !! l) = forget_filter <$> (heap st2 !! l).
Proof. intros (Hheap & _ & _). by rewrite <- !lookup_fmap, Hheap. Qed.

Lemma same_but_filter_dom st1 st2 :
  same_but_filter st1 st2 → dom (heap st1) = dom (heap st2).
Proof.
  intros (Hheap & _ & _).
  rewrite <- (dom_fmap_L forget_filter (heap st1)).
  rewrite <- (dom_fmap_L forget_filter (heap st2)).
  by rewrite Hheap.
Qed.

Lemma same_but_filter_insert st1 st2 l o1 o2 :
  same_but_filter st1 st2 →
  forget_filter o1 = forget_filter o2 →
  same_but_filter
    (mkState (<[l := o1]> (heap st1)) (events st1) (net st1))
    (mkState (<[l := o2]> (heap st2)) (events st2) (net st2)).
Proof.
  intros (Hheap & Hev & Hnet) Ho. split; [|done]. simpl.
  by rewrite !fmap_insert, Hheap, Ho.
Qed.

Lemma alike_ret {A} (a : A) : alike (ret a) (ret a).
Proof. by intros st1 st2 Hst. Qed.

Lemma alike_lift {A} (r : res A) : alike (lift r) (lift r).
Proof. by intros st1 st2 Hst. Qed.

Lemma alike_raise {A} (e : exn) : alike (@raise _ A e) (raise e).
Proof. by intros st1 st2 Hst. Qed.

Lemma alike_bind {A B} (m1 m2 : M A) (f1 f2 : A → M B) :
  alike m1 m2 → (∀ a, alike (f1 a) (f2 a)) →
  alike (m1 ≫= f1) (m2 ≫= f2).
Proof.
  intros Hm Hf st1 st2 Hst. destruct (Hm st1 st2 Hst) as [Hr Hst'].
  unfold_monad.
  destruct (m1 st1) as [[a1|e1] st1'], (m2 st2) as [[a2|e2] st2'];
    simpl in *; simplify_eq; [|done].
  by apply Hf.
Qed.

(** What follows a read of an instance may depend on everything but the
    stored filter. *)
Lemma alike_get_obj_bind {B} l (f1 f2 : EntityConfiguration → M B) :
  (∀ o1 o2, forget_filter o1 = forget_filter o2 → alike (f1 o1) (f2 o2)) →
  alike (get_obj l ≫= f1) (get_obj l ≫= f2).
Proof.
  intros Hf st1 st2 Hst.
  pose proof (same_but_filter_lookup st1 st2 l Hst) as Hl.
  unfold_monad. unfold get_obj.
  destruct (heap st1 !! l) as [o1|], (heap st2 !! l) as [o2|];
    simpl in Hl; try discriminate; [|done].
  apply Hf; [|done]. congruence.
Qed.

Lemma blind_get_obj_then {B} l (m : M B) :
  filter_blind m → filter_blind (get_obj l ;; m).
Proof. intros Hm. apply alike_get_obj_bind. by intros. Qed.

Lemma blind_modify_obj l (g : EntityConfiguration → EntityConfiguration) :
  (∀ o1 o2, forget_filter o1 = forget_filter o2 →
            forget_filter (g o1) = forget_filter (g o2)) →
  filter_blind (modify_obj l g).
Proof.
  intros Hg st1 st2 Hst.
  pose proof (same_but_filter_lookup st1 st2 l Hst) as Hl.
  unfold modify_obj.
  destruct (heap st1 !! l) as [o1|], (heap st2 !! l) as [o2|];
    simpl in Hl; try discriminate; [|done].
  split; [done|]. apply same_but_filter_insert; [done|].
  apply Hg. congruence.
Qed.

Lemma alike_alloc o1 o2 :
  forget_filter o1 = forget_filter o2 → alike (alloc o1) (alloc o2).
Proof.
  intros Ho st1 st2 Hst. unfold alloc. simpl.
  rewrite (same_but_filter_dom st1 st2 Hst).
  split; [done|]. by apply same_but_filter_insert.
Qed.

Lemma blind_logger lv msg : filter_blind (logger lv msg).
Proof.
  intros st1 st2 (Hheap & Hev & Hnet). split; [done|].
  split; [done|]. simpl. by rewrite Hev.
Qed.

Lemma blind_run_http_get urls hp : filter_blind (run_http_get urls hp).
Proof.
  intros st1 st2 (Hheap & Hev & Hnet). unfold run_http_get.
  rewrite Hnet. destruct (http_get urls hp (net st2)) as [r w]. simpl.
  split; [done|]. split; [done|]. simpl. by rewrite Hev.
Qed.

Lemma blind_for_each {A} (l : list A) (body : A → M unit) :
  (∀ x, filter_blind (body x)) → filter_blind (for_each l body).
Proof.
  intros Hbody. induction l as [|x l IH]; simpl.
  - apply alike_ret.
  - apply alike_bind; [apply Hbody|]. by intros _.
Qed.

Lemma blind_try_except {A} (body : M A) (handler : exn → M A) :
  filter_blind body → (∀ e, filter_blind (handler e)) →
  filter_blind (try_except body handler).
Proof.
  intros Hbody Hhandler st1 st2 Hst.
  destruct (Hbody st1 st2 Hst) as [Hr Hst']. unfold try_except.
  destruct (body st1) as [[a1|e1] st1'], (body st2) as [[a2|e2] st2'];
    simpl in *; simplify_eq; [done|].
  by apply Hhandler.
Qed.

(** Two instances that differ at most by their filter have the same
    attributes otherwise. *)
Ltac same_attributes o1 o2 H :=
  destruct o1, o2; injection H as -> -> -> -> -> -> -> -> -> -> -> -> -> -> ->;
  cbn [EC.jwt EC.header EC.payload EC.sub EC.jwks EC.kids EC.httpc_params
       EC.trust_anchors_entity_confs EC.trust_mark_issuers_entity_confs
       EC.verified_superiors EC.failed_superiors EC.verified_by_superiors
       EC.failed_by_superiors EC.invalid_superiors EC.is_valid].

Ltac blind_step :=
  lazymatch goal with
  | |- alike (ret _) _ => apply alike_ret
  | |- alike (lift _) _ => apply alike_lift
  | |- alike (raise _) _ => apply alike_raise
  | |- alike (logger _ _) _ => apply blind_logger
  | |- alike (run_http_get _ _) _ => apply blind_run_http_get
  | |- alike (get_obj _ ≫= _) _ =>
      apply alike_get_obj_bind;
      let o1 := fresh "o" in let o2 := fresh "o" in let H := fresh "H" in
      intros o1 o2 H; same_attributes o1 o2 H
  | |- alike (_ ≫= _) _ => apply alike_bind; [|intros ?]
  end.

Ltac blind := unfold filter_blind; repeat blind_step.

Lemma blind_if {A} (b : bool) (m1 m2 : M A) :
  filter_blind m1 → filter_blind m2 → filter_blind (if b then m1 else m2).
Proof. by destruct b. Qed.

Lemma forget_filter_set_is_valid b o1 o2 :
  forget_filter o1 = forget_filter o2 →
  forget_filter (EC.set_is_valid b o1) = forget_filter (EC.set_is_valid b o2).
Proof. intros H. by same_attributes o1 o2 H. Qed.

Lemma forget_filter_target_setitem t k v o1 o2 :
  forget_filter o1 = forget_filter o2 →
  forget_filter (target_setitem t k v o1)
  = forget_filter (target_setitem t k v o2).
Proof. intros H. destruct t; by same_attributes o1 o2 H. Qed.

(** [__init__] with two filters: the same outcome, and stores that differ at
    most by the filter of the new instance. *)
Lemma alike_init jwt hp f1 f2 ta tmi :
  alike (EntityConfiguration__init__ jwt hp f1 ta tmi)
        (EntityConfiguration__init__ jwt hp f2 ta tmi).
Proof.
  unfold EntityConfiguration__init__.
  do 5 (apply alike_bind; [apply alike_lift|intros ?]).
  by apply alike_alloc.
Qed.

Lemma blind_validate_by_itself self : filter_blind (validate_by_itself self).
Proof.
  unfold validate_by_itself. blind.
  - apply blind_if; blind.
  - apply blind_modify_obj, forget_filter_set_is_valid.
Qed.

Lemma blind_validate_descendant_statement self jwt :
  filter_blind (validate_descendant_statement self jwt).
Proof.
  unfold validate_descendant_statement. blind.
  apply blind_if; blind.
Qed.

Lemma blind_get_entity_statements urls hp :
  filter_blind (get_entity_statements urls hp).
Proof.
  unfold get_entity_statements. blind.
  apply blind_for_each. intros url. apply blind_logger.
Qed.

Lemma blind_route_superior self jwt : filter_blind (route_superior self jwt).
Proof.
  unfold route_superior. blind.
  - apply alike_init.
  - apply blind_validate_by_itself.
  - apply blind_modify_obj. intros. by apply forget_filter_target_setitem.
Qed.

Lemma blind_clamp_authority_hints self arg max :
  filter_blind (clamp_authority_hints self arg max).
Proof.
  unfold clamp_authority_hints. blind.
  apply blind_if; blind. apply blind_if; blind.
Qed.

Lemma blind_get_superiors self arg max :
  filter_blind (get_superiors self arg max).
Proof.
  unfold get_superiors. blind.
  - apply blind_clamp_authority_hints.
  - apply blind_get_entity_statements.
  - apply blind_for_each. intros jwt. apply blind_route_superior.
Qed.

Lemma blind_superior_statement_checks self jwt ec payload :
  filter_blind (superior_statement_checks self jwt ec payload).
Proof.
  unfold superior_statement_checks. blind.
  - apply blind_validate_by_itself.
  - apply blind_validate_descendant_statement.
Qed.

Lemma blind_superior_statement_try self jwt ec :
  filter_blind (superior_statement_try self jwt ec).
Proof.
  unfold superior_statement_try.
  destruct (unpad_jwt_payload jwt) as [payload|e]; [|apply alike_ret].
  apply blind_try_except; [|intros e; apply alike_ret].
  blind. apply blind_superior_statement_checks.
Qed.

Lemma blind_validate_by_superior_statement self jwt ec :
  filter_blind (validate_by_superior_statement self jwt ec).
Proof.
  unfold validate_by_superior_statement.
  apply alike_bind; [apply blind_superior_statement_try|].
  intros [[payload|] is_valid]; blind.
  apply blind_modify_obj. intros. by apply forget_filter_target_setitem.
Qed.

Lemma blind_validate_by_superior self ec :
  filter_blind (validate_by_superior self ec).
Proof.
  unfold validate_by_superior. blind.
  destruct (federation_api_endpoint _) as [url|e].
  - blind.
    + apply blind_get_entity_statements.
    + apply blind_validate_by_superior_statement.
    + apply blind_modify_obj. intros o1 o2 H. by same_attributes o1 o2 H.
  - destruct e; blind.
    lazymatch goal with
    | |- alike (match ?x with Some _ => _ | None => _ end) _ =>
        destruct x as [d|]
    end; blind.
    apply blind_modify_obj. intros o1 o2 H. by same_attributes o1 o2 H.
Qed.

Lemma blind_validate_by_superiors self superiors :
  filter_blind (validate_by_superiors self superiors).
Proof.
  unfold validate_by_superiors. blind.
  apply blind_for_each. intros ec. apply blind_validate_by_superior.
Qed.

Lemma init_same_outcome jwt hp f ta tmi st :
  (EntityConfiguration__init__ jwt hp f ta tmi st).1
  = (EntityConfiguration__init__ jwt hp (JList []) ta tmi st).1 ∧
  same_but_filter (EntityConfiguration__init__ jwt hp f ta tmi st).2
    (EntityConfiguration__init__ jwt hp (JList []) ta tmi st).2.
Proof. by apply alike_init. Qed.

(** C7 (as amended): [get_valid_trust_marks] raises [NotImplementedError]
    whenever it is called, and it is the only place where the filter could
    matter.  [__init__] only stores the filter: it returns or raises as it
    does with an empty filter, the instance it returns holds the filter, and
    the store it leaves differs from the one of an empty filter by that
    stored filter alone.  The resolution methods [validate_by_itself],
    [validate_descendant_statement], [validate_by_superior_statement],
    [get_superiors] and [validate_by_superiors] do not depend on the stored
    filters: from two states that differ at most by the filters stored in
    their instances, each returns the same value or raises the same
    exception, logs and requests the same, and leaves stores that again
    differ at most by the stored filters.  A supplied filter is thus
    silently ignored by resolution. *)
Theorem trust_mark_filter_only_stored jwt hp f ta tmi st :
  (∀ self st0,
     get_valid_trust_marks self st0 = (Err NotImplementedError, st0)) ∧
  (EntityConfiguration__init__ jwt hp f ta tmi st).1
  = (EntityConfiguration__init__ jwt hp (JList []) ta tmi st).1 ∧
  (∀ self st',
     EntityConfiguration__init__ jwt hp f ta tmi st = (Ok self, st') →
     ∃ o, heap st' !! self = Some o ∧
          EC.filter_by_allowed_trust_marks o = f) ∧
  same_but_filter (EntityConfiguration__init__ jwt hp f ta tmi st).2
    (EntityConfiguration__init__ jwt hp (JList []) ta tmi st).2 ∧
  (∀ self, filter_blind (validate_by_itself self)) ∧
  (∀ self jwt', filter_blind (validate_descendant_statement self jwt')) ∧
  (∀ self jwt' ec,
     filter_blind (validate_by_superior_statement self jwt' ec)) ∧
  (∀ self authority_hints max_authority_hints,
     filter_blind (get_superiors self authority_hints max_authority_hints)) ∧
  (∀ self superiors, filter_blind (validate_by_superiors self superiors)).
Proof.
  split; [done|].
  split; [apply init_same_outcome|].
  split.
  { intros self st' Hrun.
    apply init_ok_inv in Hrun
      as (header & payload & sub & jwks & kids & _ & _ & _ & _ & _ & _ & ->).
    eexists. simpl. split; [apply lookup_insert_eq|done]. }
  split; [apply init_same_outcome|].
  split; [apply blind_validate_by_itself|].
  split; [apply blind_validate_descendant_statement|].
  split; [apply blind_validate_by_superior_statement|].
  split; [apply blind_get_superiors|].
  apply blind_validate_by_superiors.
Qed.

End filter_independence.

(** ** The properties on the small federation *)

Section scenarios.
Import Federation.

Lemma unbound_payload_witness :
  let st := resolved_st [ta_sub] in
  heap st !! leaf = Some (instance_at st leaf) ∧
  unpad_jwt_payload "<html>502</html>" = Err (OtherError "binascii.Error") ∧
  validate_by_superior_statement leaf "<html>502</html>" superior st
  = (Err (UnboundLocalError "payload"), st).
Proof.
  intros st. split; [by vm_compute|]. split; [reflexivity|].
  by eapply validate_by_superior_statement_unbound_payload; vm_compute.
Defined.

Lemma records_in_superiors_witness :
  let st := resolved_st [ta_sub] in
  let run :=
    validate_by_superior_statement leaf "stmt-otherkey.jwt" superior st in
  heap st !! leaf = Some (instance_at st leaf) ∧
  run = (Ok false, run.2) ∧
  ∃ o',
    heap run.2 !! leaf = Some o' ∧
    EC.verified_by_superiors o' = ∅ ∧
    EC.failed_by_superiors o' = ∅ ∧
    EC.failed_superiors o'
    = <[KStr ta_sub := VJson stmt_otherkey_payload]> ∅.
Proof.
  intros st run.
  assert (heap st !! leaf = Some (instance_at st leaf)) as Hself
    by by vm_compute.
  assert (run = (Ok false, run.2)) as Hrun by by vm_compute.
  split; [done|]. split; [done|].
  destruct (validate_by_superior_statement_records_in_superiors
              leaf "stmt-otherkey.jwt" superior st _ false _ Hself Hrun)
    as (payload & iss & k & o' & Hp & Hiss & Hk & Ho' & Hvb & Hfb & Hfs & _).
  injection Hp as <-. injection Hiss as <-. injection Hk as <-.
  exists o'. split; [exact Ho'|]. split; [exact Hvb|]. split; [exact Hfb|].
  exact Hfs.
Defined.

Lemma foreign_key_set_witness :
  let st := resolved_st [ta_sub] in
  heap st !! leaf = Some (instance_at st leaf) ∧
  unpad_jwt_payload "stmt-otherkey.jwt" = Ok stmt_otherkey_payload ∧
  claim stmt_otherkey_payload "iss" = Some (JStr ta_sub) ∧
  hash_key (JStr ta_sub) = Ok (KStr ta_sub) ∧
  claim (EC.header (instance_at st leaf)) "kid" = Some (JStr "k1") ∧
  kids_of (JList [key_of "k2"]) = Ok [JStr "k2"] ∧
  py_in (JStr "k1") [JStr "k2"] = false ∧
  ∃ st',
    validate_by_superior_statement leaf "stmt-otherkey.jwt" superior st
    = (Ok false, st').
Proof.
  intros st.
  assert (heap st !! leaf = Some (instance_at st leaf)) as Hself
    by by vm_compute.
  repeat (split; [by vm_compute|]).
  apply (validate_by_superior_statement_foreign_key_set
           leaf "stmt-otherkey.jwt" superior st (instance_at st leaf)
           stmt_otherkey_payload (JStr ta_sub) (KStr ta_sub));
    [done|done|done|done|].
  intros kid jwks kids Hkid Hjwks Hkids.
  vm_compute in Hkid. injection Hkid as <-.
  vm_compute in Hjwks. injection Hjwks as <-.
  vm_compute in Hkids. injection Hkids as <-.
  reflexivity.
Defined.

Lemma missing_endpoint_witness :
  let st := resolved_st ["https://bare.example/"; ta_sub] in
  let o := instance_at st leaf in
  let o_ec := instance_at st superior in
  heap st !! leaf = Some o ∧
  heap st !! superior = Some o_ec ∧
  EC.payload o_ec = bare_payload ∧
  federation_api_endpoint (EC.payload o_ec) = Err KeyError ∧
  EC.invalid_superiors o = None ∧
  validate_by_superiors leaf [superior; 3%positive] st
  = (Err AttributeError,
     mkState (heap st) (events st ++ [missing_endpoint_warning o o_ec])
       (net st)).
Proof.
  intros st o o_ec.
  repeat (split; [by vm_compute|]).
  by apply validate_by_superiors_missing_endpoint; vm_compute.
Defined.

Lemma truncation_witness :
  let st := leaf_st (JList []) in
  let o := instance_at st leaf in
  let arg := JList (JStr <$> five_hints) in
  heap st !! leaf = Some o ∧
  effective_authority_hints o arg = Ok arg ∧
  effective_authority_hints o (JList []) = Ok (JList (JStr <$> [ta_sub])) ∧
  0 < 3 < Z.of_nat (length five_hints) ∧
  Z.of_nat (length [ta_sub]) ≤ 3 ∧
  events (get_superiors leaf arg 3 st).2
  = events st
    ++ [ignored_warning five_hints 3]
    ++ (statement_request <$> (JStr <$> take 3 five_hints))
    ++ [EvHttpGet (JList (JStr <$> take 3 five_hints)) (EC.httpc_params o)] ∧
  get_superiors leaf arg 3 st
  = get_superiors leaf (JList (JStr <$> take 3 five_hints)) 3
      (add_events [ignored_warning five_hints 3] st) ∧
  (∃ o',
     heap (get_superiors leaf arg 3 st).2 !! leaf = Some o' ∧
     EC.failed_superiors o' = EC.failed_superiors o ∧
     ∀ k, EC.verified_superiors o' !! k = EC.verified_superiors o !! k ∨
          ∃ jwts jwt,
            (http_get (JList (JStr <$> take 3 five_hints))
               (EC.httpc_params o) (net st)).1 = Ok jwts ∧
            jwt ∈ jwts ∧ sub_key jwt = Ok k) ∧
  events (get_superiors leaf (JList []) 3 st).2
  = events st
    ++ (statement_request <$> (JStr <$> [ta_sub]))
    ++ [EvHttpGet (JList (JStr <$> [ta_sub])) (EC.httpc_params o)].
Proof.
  intros st o arg.
  assert (heap st !! leaf = Some o) as Hself by by vm_compute.
  assert (effective_authority_hints o arg = Ok arg) as Heff by by vm_compute.
  assert (effective_authority_hints o (JList [])
          = Ok (JList (JStr <$> [ta_sub]))) as Heff0 by by vm_compute.
  assert (0 < 3 < Z.of_nat (length five_hints)) as Hmax by by vm_compute.
  assert (Z.of_nat (length [ta_sub]) ≤ 3) as Hfew by by vm_compute.
  do 5 (split; [done|]).
  destruct (get_superiors_truncation leaf o st arg five_hints 3 Hself Heff)
    as [Htrunc _].
  destruct (get_superiors_truncation leaf o st (JList []) [ta_sub] 3
              Hself Heff0) as [_ Hkeep].
  destruct (Htrunc Hmax) as (Hevents & Hsame & Hfiled).
  split; [exact Hevents|]. split; [exact Hsame|]. split; [exact Hfiled|].
  apply Hkeep. by right.
Defined.

(** Two hints and a limit of 1: the kept hint is the mirror, which serves
    the configuration of the anchor, and the discarded hint is the subject
    of the anchor.  Only the mirror is requested, and the discarded hint
    becomes a key of [verified_superiors], which was empty. *)
Lemma discarded_hint_in_verified_superiors :
  let st := mirror_leaf_st in
  let hints := [mirror; ta_sub] in
  let run :=
    @get_superiors with_mirror leaf (JList (JStr <$> hints)) 1 st in
  0 < 1 < Z.of_nat (length hints) ∧
  drop 1 hints = [ta_sub] ∧
  (∃ o, heap st !! leaf = Some o ∧ EC.verified_superiors o = ∅) ∧
  events run.2
  = [ignored_warning hints 1; statement_request (JStr mirror);
     EvHttpGet (JList [JStr mirror]) no_params] ∧
  ∃ o', heap run.2 !! leaf = Some o' ∧
        EC.verified_superiors o' !! KStr ta_sub = Some (VRef superior).
Proof.
  intros st hints run.
  split; [by vm_compute|]. split; [done|].
  split; [eexists; split; by vm_compute|].
  split; [by vm_compute|].
  eexists. split; by vm_compute.
Qed.


Lemma init_witness :
  (∃ e, EntityConfiguration__init__ "remote-keys.jwt" no_params (JList [])
          (JList []) (JList []) st0 = (Err e, st0)) ∧
  (∃ e, EntityConfiguration__init__ "anonymous.jwt" no_params (JList [])
          (JList []) (JList []) st0 = (Err e, st0)) ∧
  ∃ payload o,
    unpad_jwt_payload "leaf.jwt" = Ok payload ∧
    is_Some (claim payload "sub") ∧
    is_Some (claim payload "jwks") ∧
    heap st0 !! leaf = None ∧
    heap (leaf_st (JList [])) = <[leaf := o]> (heap st0) ∧
    EC.payload o = payload ∧
    EC.verified_superiors o = ∅ ∧
    EC.failed_superiors o = ∅ ∧
    EC.verified_by_superiors o = ∅ ∧
    EC.failed_by_superiors o = ∅ ∧
    EC.is_valid o = false.
Proof.
  split; [|split].
  - apply (proj1 (init_requires_sub_and_jwks "remote-keys.jwt" no_params
                    (JList []) (JList []) (JList []) st0)
             remote_keys_payload); [done|by right].
  - apply (proj1 (init_requires_sub_and_jwks "anonymous.jwt" no_params
                    (JList []) (JList []) (JList []) st0)
             anonymous_payload); [done|by left].
  - apply (proj2 (init_requires_sub_and_jwks "leaf.jwt" no_params
                    (JList []) (JList []) (JList []) st0) leaf).
    by vm_compute.
Defined.

Lemma get_jwks_witness :
  get_jwks leaf_payload no_params = Ok (JList [key_of "k1"]) ∧
  get_jwks remote_keys_payload no_params = Ok JNull.
Proof.
  split.
  - by apply (proj1 (get_jwks_embedded_or_none leaf_payload no_params)).
  - by eapply (proj2 (get_jwks_embedded_or_none remote_keys_payload
                        no_params)).
Defined.

(** A payload that declares a [jwks_uri] and embeds no key set: [get_jwks]
    returns [None] and raises nothing. *)
Lemma get_jwks_remote_uri_returns_none :
  claim remote_keys_payload "jwks_uri"
  = Some (JStr "https://remote.example/jwks.json") ∧
  claim remote_keys_payload "jwks" = None ∧
  get_jwks remote_keys_payload no_params = Ok JNull ∧
  ¬ ∃ e, get_jwks remote_keys_payload no_params = Err e.
Proof. repeat split; try done. by intros [e He]. Qed.

Lemma trust_mark_filter_witness :
  let filter := JList [JStr "https://tm.example/certified"] in
  get_valid_trust_marks leaf (leaf_st filter)
  = (Err NotImplementedError, leaf_st filter) ∧
  (EntityConfiguration__init__ "leaf.jwt" no_params filter (JList [])
     (JList []) st0).1 = Ok leaf ∧
  EC.filter_by_allowed_trust_marks (instance_at (leaf_st filter) leaf)
  = filter ∧
  same_but_filter (leaf_st filter) (leaf_st (JList [])) ∧
  (validate_by_itself leaf (leaf_st filter)).1
  = (validate_by_itself leaf (leaf_st (JList []))).1 ∧
  (get_superiors leaf (JList []) 0 (leaf_st filter)).1
  = (get_superiors leaf (JList []) 0 (leaf_st (JList []))).1 ∧
  same_but_filter (get_superiors leaf (JList []) 0 (leaf_st filter)).2
    (get_superiors leaf (JList []) 0 (leaf_st (JList []))).2.
Proof.
  intros filter.
  destruct (trust_mark_filter_only_stored "leaf.jwt" no_params filter
              (JList []) (JList []) st0)
    as (Hraise & Hsame & Hstored & Hstore & Hitself & _ & _ & Hsuperiors & _).
  split; [apply Hraise|]. split; [by rewrite Hsame|].
  split.
  { destruct (Hstored leaf (leaf_st filter)) as (o & Ho & Hf);
      [by vm_compute|].
    unfold instance_at. by rewrite Ho. }
  split; [exact Hstore|].
  split; [exact (proj1 (Hitself leaf _ _ Hstore))|].
  exact (Hsuperiors leaf (JList []) 0 _ _ Hstore).
Defined.

(** A resolution of the leaf with a non-empty trust-mark filter: every
    step returns, and the outcome is the one of a resolution without
    filter. *)
Lemma resolution_ignores_filter :
  let filter := JList [JStr "https://tm.example/certified"] in
  (resolution filter st0).1
  = Ok (<[KStr ta_sub := VJson (JBool true)]> ∅) ∧
  (resolution filter st0).1 = (resolution (JList []) st0).1 ∧
  EC.filter_by_allowed_trust_marks
    (instance_at (resolution filter st0).2 leaf) = filter.
Proof. intros filter. repeat split; vm_compute; reflexivity. Qed.






(** A batch whose first token is signed with a key that its own key set
    does not hold: [validate_by_itself] raises [UnknownKid], which leaves
    [get_superiors]; the [else] branch of line 135 is not reached and the
    second token is not processed. *)
Lemma get_superiors_raises_on_unknown_kid :
  let st := leaf_st (JList []) in
  let arg := JList (JStr <$> ["https://rogue.example/"; ta_sub]) in
  let run := get_superiors leaf arg 0 st in
  let o' := instance_at run.2 leaf in
  run.1 = Err (UnknownKid (JStr "r9") (JList [key_of "r1"])) ∧
  EC.verified_superiors o' = ∅ ∧
  EC.failed_superiors o' = ∅.
Proof. intros st arg run o'. repeat split; vm_compute; reflexivity. Qed.

(** A superior whose statement fails the cross-validation:
    [validate_by_superiors] files the outcome [False] in
    [verified_by_superiors], and [failed_by_superiors] stays empty. *)
Lemma validate_by_superiors_files_failure_as_verified :
  let st := resolved_st ["https://ta2.example/"] in
  let run := validate_by_superiors leaf [superior] st in
  let o' := instance_at run.2 leaf in
  run.1 = Ok (<[KStr "https://ta2.example/" := VJson (JBool false)]> ∅) ∧
  EC.verified_by_superiors o'
  = <[KStr "https://ta2.example/" := VJson (JBool false)]> ∅ ∧
  EC.failed_by_superiors o' = ∅.
Proof. intros st run o'. repeat split; vm_compute; reflexivity. Qed.

End scenarios.

(** * Further properties of the module *)

(** ** Fetching *)

Section fetching.
Context `{C : Collaborators}.

(** X1: [get_entity_statements] on a list logs one record per URL, in
    order, then sends the list as one batch; it returns what the fetch
    returns, or raises what it raises, and touches no instance.  A [str]
    is the batch of that one URL, and a value that cannot be iterated
    raises [TypeError] before any record or request. *)
Theorem get_entity_statements_batch hp st :
  (∀ items,
     get_entity_statements (JList items) hp st
     = ((http_get (JList items) hp (net st)).1,
        mkState (heap st)
          (events st ++ (statement_request <$> items)
           ++ [EvHttpGet (JList items) hp])
          (http_get (JList items) hp (net st)).2)) ∧
  (∀ url,
     get_entity_statements (JStr url) hp st
     = get_entity_statements (JList [JStr url]) hp st) ∧
  (∀ urls,
     urls = JNull ∨ (∃ b, urls = JBool b) ∨ (∃ n, urls = JInt n) →
     get_entity_statements urls hp st = (Err TypeError, st)).
Proof.
  split; [|split].
  - intros items. rewrite get_entity_statements_list.
    unfold run_http_get, add_events. simpl.
    destruct (http_get (JList items) hp (net st)) as [r w]. simpl.
    by rewrite <- app_assoc.
  - done.
  - by intros urls [->|[[b ->]|[n ->]]].
Qed.

Lemma build_urls_empty_subject good : ∀ rest acc st,
  Forall (λ s, s ≠ "") good →
  ∃ urls,
    Forall2 discovery_url_of good urls ∧
    build_urls (good ++ "" :: rest) acc st
    = (Err IndexError,
       mkState (heap st) (events st ++ (configuration_request <$> urls))
         (net st)).
Proof.
  induction good as [|s good IH]; intros rest acc st Hne.
  - exists []. split; [constructor|]. simpl.
    by rewrite app_nil_r, state_eta.
  - apply Forall_cons in Hne as [Hs Hne].
    destruct (well_known_url_spec s Hs) as (url & Hurl & Hrel).
    destruct (IH rest (acc ++ [url])
                (mkState (heap st) (events st ++ [configuration_request url])
                   (net st)) Hne) as (urls & Hall & Hrun).
    exists (url :: urls). split; [by constructor|].
    simpl. rewrite Hurl. msimpl. unfold logger, emit. simpl.
    unfold configuration_request in *. rewrite Hrun. simpl.
    by rewrite <- !app_assoc.
Qed.

(** X2: a subject that is the empty string makes
    [get_entity_configurations] raise [IndexError] at [subject[-1]]: the
    subjects before it have been logged, and no request is sent for any
    subject. *)
Theorem get_entity_configurations_empty_subject good rest hp st :
  Forall (λ s, s ≠ "") good →
  ∃ urls,
    Forall2 discovery_url_of good urls ∧
    get_entity_configurations (Subjects (good ++ "" :: rest)) hp st
    = (Err IndexError,
       mkState (heap st) (events st ++ (configuration_request <$> urls))
         (net st)).
Proof.
  intros Hne.
  destruct (build_urls_empty_subject good rest [] st Hne)
    as (urls & Hall & Hrun).
  exists urls. split; [done|].
  unfold get_entity_configurations.
  by rewrite (bind_err _ _ _ _ _ Hrun).
Qed.

(** X3: [jwks_from_jwks_uri] never returns a key set.  It sends one batch
    with the URI; when the fetch raises, that exception leaves the call,
    and when the fetch returns, [json.loads] is given the list of the
    responses and raises [TypeError]. *)
Theorem jwks_from_jwks_uri_never_returns jwks_uri hp st :
  let fetch := http_get (JList [jwks_uri]) hp (net st) in
  jwks_from_jwks_uri jwks_uri hp st
  = (Err match fetch.1 with Ok _ => TypeError | Err e => e end,
     mkState (heap st) (events st ++ [EvHttpGet (JList [jwks_uri]) hp])
       fetch.2).
Proof.
  unfold jwks_from_jwks_uri, run_http_get. unfold_monad.
  by destruct (http_get (JList [jwks_uri]) hp (net st)) as [[responses|e] w].
Qed.

End fetching.

(** ** Keys and self-validation *)

Section self_validation.
Context `{C : Collaborators}.

Lemma res_mapM_lookup {A B} (f : A → res B) l : ∀ bs,
  res_mapM f l = Ok bs →
  length bs = length l ∧
  ∀ i a, l !! i = Some a → ∃ b, f a = Ok b ∧ bs !! i = Some b.
Proof.
  induction l as [|x l IH]; intros bs; simpl.
  - intros [= <-]. split; [done|]. by intros i a.
  - destruct (f x) as [b|] eqn:Hx; [|done].
    destruct (res_mapM f l) as [bs'|]; [|done].
    intros [= <-]. destruct (IH bs' eq_refl) as [Hlen Hnth].
    split; [simpl; by rewrite Hlen|].
    intros [|i] a; simpl.
    + intros [= <-]. eauto.
    + apply Hnth.
Qed.

(** X4: on the instance that [__init__] builds, [kids] goes with [jwks]
    item by item: when [jwks] is a list, every key is a [dict], there are
    as many [kids] as keys, and the [kid] at an index is the [kid] of the
    key at that index, [None] for a key that has none. *)
Theorem init_kids_follow_jwks jwt hp f ta tmi st self st' :
  EntityConfiguration__init__ jwt hp f ta tmi st = (Ok self, st') →
  ∃ o,
    heap st' !! self = Some o ∧
    ∀ keys,
      EC.jwks o = JList keys →
      length (EC.kids o) = length keys ∧
      ∀ i pub_jwk,
        keys !! i = Some pub_jwk →
        ∃ kv, pub_jwk = JObj kv ∧
              EC.kids o !! i = Some (default JNull (assoc "kid" kv)).
Proof.
  intros Hrun. apply init_ok_inv in Hrun
    as (header & payload & sub & jwks & kids & _ & _ & _ & _ & Hkids & _ & ->).
  eexists. split; [apply lookup_insert_eq|]. simpl.
  intros keys ->. unfold kids_of in Hkids. unfold_monad. simpl in Hkids.
  destruct (res_mapM_lookup _ _ _ Hkids) as [Hlen Hnth].
  split; [done|]. intros i pub_jwk Hi.
  destruct (Hnth i pub_jwk Hi) as (kid & Hget & Hkid).
  destruct pub_jwk as [| | | | |kv]; try discriminate Hget.
  exists kv. split; [done|]. simpl in Hget. by injection Hget as <-.
Qed.

Lemma py_index_first l x : ∀ i,
  py_index l x = Ok i →
  (∃ y, l !! i = Some y ∧ py_eq y x = true) ∧
  ∀ j y, (j < i)%nat → l !! j = Some y → py_eq y x = false.
Proof.
  induction l as [|z l IH]; intros i; simpl; [done|].
  destruct (py_eq z x) eqn:Hz.
  - intros [= <-]. split; [by exists z|]. intros; lia.
  - destruct (py_index l x) as [i'|]; [|done].
    intros [= <-]. destruct (IH i' eq_refl) as [Hat Hbefore].
    split; [done|]. intros [|j] y Hj; simpl.
    + by intros [= <-].
    + apply Hbefore. lia.
Qed.

Lemma validate_by_itself_ok_inv self st outcome st' :
  validate_by_itself self st = (Ok outcome, st') →
  outcome = true ∧
  ∃ o kid i pub_jwk msg,
    heap st !! self = Some o ∧
    claim (EC.header o) "kid" = Some kid ∧
    py_index (EC.kids o) kid = Ok i ∧
    py_getitem_idx (EC.jwks o) i = Ok pub_jwk ∧
    verify_jws (EC.jwt o) pub_jwk = Ok msg ∧
    st' = mkState (<[self := EC.set_is_valid true o]> (heap st)) (events st)
            (net st).
Proof.
  intros Hrun.
  destruct (validate_by_itself_inv _ _ _ _ Hrun)
    as [(e & [=] & _)|([= ->] & -> & [o Ho])].
  split; [done|]. revert Hrun.
  unfold validate_by_itself, get_obj, modify_obj, validated.
  rewrite Ho. unfold_monad. rewrite Ho.
  destruct (py_get (EC.header o) "kid") as [kid0|]; [|done].
  destruct (negb (py_in kid0 (EC.kids o))).
  { by destruct (py_get (EC.header o) "kid"). }
  destruct (py_getitem (EC.header o) "kid") as [kid|] eqn:Hkid; [|done].
  destruct (py_index (EC.kids o) kid) as [i|] eqn:Hi; [|done].
  destruct (py_getitem_idx (EC.jwks o) i) as [pub_jwk|] eqn:Hkey; [|done].
  destruct (verify_jws (EC.jwt o) pub_jwk) as [msg|] eqn:Hv; [|done].
  intros _. exists o, kid, i, pub_jwk, msg.
  split; [done|]. split; [|done].
  destruct (EC.header o); try discriminate Hkid. simpl in *.
  by destruct (assoc "kid" kv); simplify_eq.
Qed.

Lemma validate_by_itself_ok_intro self st o kid i pub_jwk msg :
  heap st !! self = Some o →
  claim (EC.header o) "kid" = Some kid →
  py_index (EC.kids o) kid = Ok i →
  py_getitem_idx (EC.jwks o) i = Ok pub_jwk →
  verify_jws (EC.jwt o) pub_jwk = Ok msg →
  validate_by_itself self st
  = (Ok true,
     mkState (<[self := EC.set_is_valid true o]> (heap st)) (events st)
       (net st)).
Proof.
  intros Ho Hkid Hi Hkey Hv.
  unfold validate_by_itself, get_obj, modify_obj. unfold_monad. rewrite Ho.
  destruct (EC.header o) as [| | | | |hv]; try discriminate Hkid.
  simpl in *. rewrite Hkid. simpl.
  rewrite (py_index_in _ _ _ Hi). simpl. by rewrite Hi, Hkey, Hv, Ho.
Qed.

(** X5: [validate_by_itself] is idempotent: a second call on the state that
    a first call leaves gives the same outcome and leaves that state. *)
Theorem validate_by_itself_idempotent self st r st' :
  validate_by_itself self st = (r, st') →
  validate_by_itself self st' = (r, st').
Proof.
  intros Hrun. destruct r as [outcome|e].
  - destruct (validate_by_itself_ok_inv _ _ _ _ Hrun)
      as (-> & o & kid & i & pub_jwk & msg & Ho & Hkid & Hi & Hkey & Hv & ->).
    rewrite (validate_by_itself_ok_intro self _ (EC.set_is_valid true o)
               kid i pub_jwk msg); try (by destruct o).
    + cbn [heap events net]. by rewrite insert_insert_eq.
    + apply lookup_insert_eq.
  - by destruct (validate_by_itself_inv _ _ _ _ Hrun)
      as [(e' & _ & ->)|([=] & _)].
Qed.

(** X6: when [validate_by_itself] returns, it returns [True]; the header of
    the token has a [kid], the signature has been verified with the key at
    the first index whose [kid] equals it, and the only change is
    [is_valid], now true, on this instance. *)
Theorem validate_by_itself_true self st outcome st' :
  validate_by_itself self st = (Ok outcome, st') →
  outcome = true ∧
  ∃ o kid i pub_jwk msg,
    heap st !! self = Some o ∧
    claim (EC.header o) "kid" = Some kid ∧
    py_index (EC.kids o) kid = Ok i ∧
    (∀ j y, (j < i)%nat → EC.kids o !! j = Some y → py_eq y kid = false) ∧
    py_getitem_idx (EC.jwks o) i = Ok pub_jwk ∧
    verify_jws (EC.jwt o) pub_jwk = Ok msg ∧
    st' = mkState (<[self := EC.set_is_valid true o]> (heap st)) (events st)
            (net st).
Proof.
  intros Hrun.
  destruct (validate_by_itself_ok_inv _ _ _ _ Hrun)
    as (-> & o & kid & i & pub_jwk & msg & Ho & Hkid & Hi & Hkey & Hv & ->).
  split; [done|]. exists o, kid, i, pub_jwk, msg.
  split; [done|]. split; [done|]. split; [done|].
  split; [apply (py_index_first _ _ _ Hi)|]. done.
Qed.

(** X7: the exceptions of [validate_by_itself], each raised before any
    assignment.  A header [kid] that no key has raises [UnknownKid] with
    that [kid] and the key set; a header without [kid], when some key has
    no [kid] either, passes the membership test and raises [KeyError] at
    [self.header["kid"]]; and an exception of [verify_jws] leaves the call
    as it is. *)
Theorem validate_by_itself_raises self st o :
  heap st !! self = Some o →
  (∀ kid,
     py_get (EC.header o) "kid" = Ok kid →
     py_in kid (EC.kids o) = false →
     validate_by_itself self st
     = (Err (UnknownKid kid (EC.jwks o)), st)) ∧
  (∀ hv,
     EC.header o = JObj hv →
     assoc "kid" hv = None →
     py_in JNull (EC.kids o) = true →
     validate_by_itself self st = (Err KeyError, st)) ∧
  (∀ kid i pub_jwk e,
     claim (EC.header o) "kid" = Some kid →
     py_index (EC.kids o) kid = Ok i →
     py_getitem_idx (EC.jwks o) i = Ok pub_jwk →
     verify_jws (EC.jwt o) pub_jwk = Err e →
     validate_by_itself self st = (Err e, st)).
Proof.
  intros Ho. unfold validate_by_itself, get_obj. unfold_monad. rewrite Ho.
  split; [|split].
  - intros kid Hkid Hin. by rewrite Hkid, Hin.
  - intros hv Hh Hnone Hin. rewrite Hh. simpl. rewrite Hnone. simpl.
    by rewrite Hin.
  - intros kid i pub_jwk e Hkid Hi Hkey Hv.
    destruct (EC.header o) as [| | | | |hv]; try discriminate Hkid.
    simpl in *. rewrite Hkid. simpl.
    rewrite (py_index_in _ _ _ Hi). simpl. by rewrite Hi, Hkey, Hv.
Qed.

End self_validation.

(** ** Statements of a superior *)

Section statements_of_superiors.
Context `{C : Collaborators}.

Lemma claim_of_getitem v k x : py_getitem v k = Ok x → claim v k = Some x.
Proof.
  destruct v as [| | | | |kv]; try done. simpl.
  by destruct (assoc k kv); intros; simplify_eq.
Qed.

Lemma validate_descendant_statement_ok_inv self jwt st outcome st' :
  validate_descendant_statement self jwt st = (Ok outcome, st') →
  outcome = true ∧ st' = st ∧
  ∃ o header payload kid i pub_jwk msg,
    heap st !! self = Some o ∧
    unpad_jwt_head jwt = Ok header ∧
    unpad_jwt_payload jwt = Ok payload ∧
    claim header "kid" = Some kid ∧
    py_index (EC.kids o) kid = Ok i ∧
    py_getitem_idx (EC.jwks o) i = Ok pub_jwk ∧
    verify_jws jwt pub_jwk = Ok msg.
Proof.
  unfold validate_descendant_statement, get_obj. unfold_monad.
  destruct (unpad_jwt_head jwt) as [header|]; [|done].
  destruct (unpad_jwt_payload jwt) as [payload|]; [|done].
  destruct (heap st !! self) as [o|]; [|done].
  destruct (py_get header "kid") as [kid0|]; [|done].
  destruct (negb (py_in kid0 (EC.kids o))).
  { by destruct (py_get (EC.header o) "kid"). }
  destruct (py_getitem header "kid") as [kid|] eqn:Hkid; [|done].
  destruct (py_index (EC.kids o) kid) as [i|] eqn:Hi; [|done].
  destruct (py_getitem_idx (EC.jwks o) i) as [pub_jwk|] eqn:Hkey; [|done].
  destruct (verify_jws jwt pub_jwk) as [msg|] eqn:Hv; [|done].
  intros [= <- <-]. split; [done|]. split; [done|].
  exists o, header, payload, kid, i, pub_jwk, msg.
  eauto 10 using claim_of_getitem.
Qed.

(** X8: a statement whose [kid] no key of the superior has makes
    [validate_descendant_statement] raise [UnknownKid]; the exception
    carries the [kid] of the superior's own header, not the [kid] of the
    statement, and nothing is changed. *)
Theorem validate_descendant_statement_unknown_kid
    self jwt st o header payload kid shown :
  heap st !! self = Some o →
  unpad_jwt_head jwt = Ok header →
  unpad_jwt_payload jwt = Ok payload →
  py_get header "kid" = Ok kid →
  py_in kid (EC.kids o) = false →
  py_get (EC.header o) "kid" = Ok shown →
  validate_descendant_statement self jwt st
  = (Err (UnknownKid shown (EC.jwks o)), st).
Proof.
  intros Ho Hh Hp Hkid Hin Hshown.
  unfold validate_descendant_statement, get_obj. unfold_monad.
  by rewrite Hh, Hp, Ho, Hkid, Hin, Hshown.
Qed.

(** X9: [validate_descendant_statement] changes nothing, whatever its
    outcome; when it returns, it returns [True], the statement decodes, and
    its signature has been verified with the key of the superior at the
    first index whose [kid] equals the [kid] of the statement. *)
Theorem validate_descendant_statement_true self jwt st :
  (validate_descendant_statement self jwt st).2 = st ∧
  ∀ outcome,
    (validate_descendant_statement self jwt st).1 = Ok outcome →
    outcome = true ∧
    ∃ o header payload kid i pub_jwk msg,
      heap st !! self = Some o ∧
      unpad_jwt_head jwt = Ok header ∧
      unpad_jwt_payload jwt = Ok payload ∧
      claim header "kid" = Some kid ∧
      py_index (EC.kids o) kid = Ok i ∧
      (∀ j y, (j < i)%nat → EC.kids o !! j = Some y → py_eq y kid = false) ∧
      py_getitem_idx (EC.jwks o) i = Ok pub_jwk ∧
      verify_jws jwt pub_jwk = Ok msg.
Proof.
  destruct (validate_descendant_statement self jwt st) as [r st'] eqn:Hrun.
  split; [by apply validate_descendant_statement_inv in Hrun as [-> _]|].
  simpl. intros outcome ->.
  destruct (validate_descendant_statement_ok_inv _ _ _ _ _ Hrun)
    as (-> & _ & o & header & payload & kid & i & pub_jwk & msg & Ho & Hh
        & Hp & Hkid & Hi & Hkey & Hv).
  split; [done|]. exists o, header, payload, kid, i, pub_jwk, msg.
  do 5 (split; [done|]). split; [apply (py_index_first _ _ _ Hi)|]. done.
Qed.

Lemma superior_statement_checks_ok_inv self jwt ec payload st st1 o :
  heap st !! self = Some o →
  superior_statement_checks self jwt ec payload st = (Ok tt, st1) →
  ∃ o_ec,
    heap st !! ec = Some o_ec ∧
    st1 = mkState (<[ec := EC.set_is_valid true o_ec]> (heap st))
            (events st) (net st) ∧
    (∃ kid i pub_jwk msg,
       claim (EC.header o_ec) "kid" = Some kid ∧
       py_index (EC.kids o_ec) kid = Ok i ∧
       py_getitem_idx (EC.jwks o_ec) i = Ok pub_jwk ∧
       verify_jws (EC.jwt o_ec) pub_jwk = Ok msg) ∧
    (∃ header kid i pub_jwk msg,
       unpad_jwt_head jwt = Ok header ∧
       claim header "kid" = Some kid ∧
       py_index (EC.kids o_ec) kid = Ok i ∧
       py_getitem_idx (EC.jwks o_ec) i = Ok pub_jwk ∧
       verify_jws jwt pub_jwk = Ok msg) ∧
    (∃ kid jwks kids i pub_jwk msg,
       claim (EC.header o) "kid" = Some kid ∧
       get_jwks payload (EC.httpc_params o) = Ok jwks ∧
       kids_of jwks = Ok kids ∧
       py_index kids kid = Ok i ∧
       py_getitem_idx jwks i = Ok pub_jwk ∧
       verify_jws (EC.jwt o) pub_jwk = Ok msg).
Proof.
  intros Hself. unfold superior_statement_checks.
  destruct (validate_by_itself ec st) as [[outcome|e] st2] eqn:H1.
  2:{ by rewrite (bind_err _ _ _ _ _ H1). }
  rewrite (bind_ok _ _ _ _ _ H1).
  destruct (validate_by_itself_ok_inv _ _ _ _ H1)
    as (-> & o_ec & kid1 & i1 & key1 & msg1 & Hec & Hkid1 & Hi1 & Hkey1
        & Hv1 & ->).
  set (st2 := mkState _ _ _) in *.
  destruct (validate_descendant_statement ec jwt st2) as [[outcome|e] st3]
    eqn:H2.
  2:{ by rewrite (bind_err _ _ _ _ _ H2). }
  rewrite (bind_ok _ _ _ _ _ H2).
  destruct (validate_descendant_statement_ok_inv _ _ _ _ _ H2)
    as (-> & -> & o2 & header & payload2 & kid2 & i2 & key2 & msg2 & Ho2
        & Hh & _ & Hkid2 & Hi2 & Hkey2 & Hv2).
  unfold st2 in Ho2. cbn [heap] in Ho2. rewrite lookup_insert_eq in Ho2.
  injection Ho2 as <-.
  assert (∃ b, heap st2 !! self = Some (EC.set_is_valid b o)) as [b Hb].
  { unfold st2. cbn [heap]. destruct (decide (ec = self)) as [->|Hne].
    - exists true. rewrite lookup_insert_eq. congruence.
    - exists (EC.is_valid o). by rewrite lookup_insert_ne, set_is_valid_id. }
  rewrite (bind_ok _ _ _ _ _ (get_obj_live _ _ _ Hb)).
  replace (EC.httpc_params (EC.set_is_valid b o)) with (EC.httpc_params o)
    by by destruct o.
  replace (EC.header (EC.set_is_valid b o)) with (EC.header o)
    by by destruct o.
  replace (EC.jwt (EC.set_is_valid b o)) with (EC.jwt o) by by destruct o.
  unfold_monad.
  destruct (get_jwks payload (EC.httpc_params o)) as [jwks|] eqn:Hjwks;
    [|done].
  destruct (kids_of jwks) as [kids|] eqn:Hkids; [|done].
  destruct (py_getitem (EC.header o) "kid") as [kid|] eqn:Hkid; [|done].
  destruct (py_index kids kid) as [i|] eqn:Hi; [|done].
  destruct (py_getitem_idx jwks i) as [pub_jwk|] eqn:Hkey; [|done].
  destruct (verify_jws (EC.jwt o) pub_jwk) as [msg|] eqn:Hv; [|done].
  intros [= <-]. exists o_ec. split; [done|]. split; [done|].
  split; [by exists kid1, i1, key1, msg1|].
  split.
  { exists header, kid2, i2, key2, msg2. by destruct o_ec. }
  exists kid, jwks, kids, i, pub_jwk, msg.
  eauto 10 using claim_of_getitem.
Qed.

Lemma superior_statement_try_run self jwt ec st payload :
  unpad_jwt_payload jwt = Ok payload →
  superior_statement_try self jwt ec st
  = match superior_statement_checks self jwt ec payload st with
    | (Ok _, st1) => (Ok (Some payload, true), st1)
    | (Err _, st1) => (Ok (Some payload, false), st1)
    end.
Proof.
  intros Hp. unfold superior_statement_try. rewrite Hp.
  unfold try_except. unfold_monad.
  by destruct (superior_statement_checks self jwt ec payload st)
    as [[[]|e] st1].
Qed.

(** X10: when [validate_by_superior_statement] returns [True], the superior
    has validated itself and is marked valid, the statement has been
    verified with the superior's key that has the statement's [kid], and
    the subject's own token has been verified with the key, among those
    embedded in the statement, that has the [kid] of the subject's header. *)
Theorem validate_by_superior_statement_true self jwt ec st o st' :
  heap st !! self = Some o →
  validate_by_superior_statement self jwt ec st = (Ok true, st') →
  ∃ payload o_ec o_ec',
    unpad_jwt_payload jwt = Ok payload ∧
    heap st !! ec = Some o_ec ∧
    heap st' !! ec = Some o_ec' ∧
    EC.is_valid o_ec' = true ∧
    (∃ kid i pub_jwk msg,
       claim (EC.header o_ec) "kid" = Some kid ∧
       py_index (EC.kids o_ec) kid = Ok i ∧
       py_getitem_idx (EC.jwks o_ec) i = Ok pub_jwk ∧
       verify_jws (EC.jwt o_ec) pub_jwk = Ok msg) ∧
    (∃ header kid i pub_jwk msg,
       unpad_jwt_head jwt = Ok header ∧
       claim header "kid" = Some kid ∧
       py_index (EC.kids o_ec) kid = Ok i ∧
       py_getitem_idx (EC.jwks o_ec) i = Ok pub_jwk ∧
       verify_jws jwt pub_jwk = Ok msg) ∧
    (∃ kid jwks kids i pub_jwk msg,
       claim (EC.header o) "kid" = Some kid ∧
       get_jwks payload (EC.httpc_params o) = Ok jwks ∧
       kids_of jwks = Ok kids ∧
       py_index kids kid = Ok i ∧
       py_getitem_idx jwks i = Ok pub_jwk ∧
       verify_jws (EC.jwt o) pub_jwk = Ok msg).
Proof.
  intros Hself Hrun.
  destruct (unpad_jwt_payload jwt) as [payload|e] eqn:Hp.
  2:{ by rewrite (superior_statement_undecoded _ _ _ _ _ _ Hself Hp)
        in Hrun. }
  pose proof (superior_statement_try_run self jwt ec st payload Hp) as Htry.
  unfold validate_by_superior_statement in Hrun.
  destruct (superior_statement_checks self jwt ec payload st)
    as [[[]|e] st1] eqn:Hchk.
  2:{ revert Hrun. rewrite (bind_ok _ _ _ _ _ Htry).
      unfold get_obj, modify_obj. unfold_monad.
      repeat (case_match; simplify_eq; try done). }
  destruct (superior_statement_checks_ok_inv _ _ _ _ _ _ _ Hself Hchk)
    as (o_ec & Hec & -> & Hown & Hstmt & Hsubj).
  revert Hrun. rewrite (bind_ok _ _ _ _ _ Htry).
  unfold get_obj, modify_obj. unfold_monad. cbn [heap events net].
  destruct (<[ec:=EC.set_is_valid true o_ec]> (heap st) !! self)
    as [o1|] eqn:Ho1; [|done].
  destruct (py_getitem payload "iss") as [iss|]; [|done].
  destruct (hash_key iss) as [k|]; [|done].
  cbn [heap events net]. rewrite Ho1. intros [= <-]. cbn [heap].
  destruct (decide (ec = self)) as [->|Hne].
  - rewrite lookup_insert_eq in Ho1. injection Ho1 as <-.
    eexists payload, o_ec, _. split; [done|]. split; [done|].
    split; [apply lookup_insert_eq|]. split; [by destruct o_ec|]. done.
  - eexists payload, o_ec, _. split; [done|]. split; [done|].
    split; [by rewrite lookup_insert_ne, lookup_insert_eq|]. done.
Qed.

(** X11: a statement that decodes to a [dict] without [iss] makes
    [validate_by_superior_statement] raise [KeyError] at
    [target[payload["iss"]]], after the [try] statement: the exception
    leaves the call, and nothing is filed. *)
Theorem validate_by_superior_statement_without_issuer
    self jwt ec st o kv :
  heap st !! self = Some o →
  unpad_jwt_payload jwt = Ok (JObj kv) →
  assoc "iss" kv = None →
  (validate_by_superior_statement self jwt ec st).1 = Err KeyError ∧
  ∃ b, heap (validate_by_superior_statement self jwt ec st).2 !! self
       = Some (EC.set_is_valid b o).
Proof.
  intros Hself Hp Hiss.
  destruct (superior_statement_try_decoded self jwt ec st o (JObj kv)
              Hself Hp) as (ok & st1 & b & Htry & Hb & _).
  unfold validate_by_superior_statement.
  rewrite (bind_ok _ _ _ _ _ Htry).
  rewrite (bind_ok _ _ _ _ _ (get_obj_live _ _ _ Hb)).
  unfold_monad. simpl. rewrite Hiss. simpl. eauto.
Qed.

End statements_of_superiors.

(** ** Resolving the superiors *)

Section resolving.
Context `{C : Collaborators}.

(** X12: called without hints on an instance whose payload declares no
    [authority_hints], as the configuration of a trust anchor,
    [get_superiors] raises [KeyError] before any record or request. *)
Theorem get_superiors_without_hints self st o arg max kv :
  heap st !! self = Some o →
  py_truthy arg = false →
  EC.payload o = JObj kv →
  assoc "authority_hints" kv = None →
  get_superiors self arg max st = (Err KeyError, st).
Proof.
  intros Hself Harg Hp Hnone.
  unfold get_superiors, clamp_authority_hints.
  unfold effective_authority_hints, get_obj. unfold_monad.
  rewrite Hself, Harg, Hp. simpl. by rewrite Hnone.
Qed.

Lemma clamp_negative self o st arg hints max :
  heap st !! self = Some o →
  effective_authority_hints o arg = Ok (JList (JStr <$> hints)) →
  hints ≠ [] →
  max < 0 →
  let n := Z.to_nat (Z.of_nat (length hints) + max) in
  clamp_authority_hints self arg max st
  = (Ok (JList (JStr <$> take n hints)),
     add_events [clamp_warning hints max n] st).
Proof.
  intros Hself Heff Hne Hmax n. unfold clamp_authority_hints.
  rewrite (bind_ok _ _ _ _ _ (get_obj_live _ _ _ Hself)).
  rewrite Heff. unfold logger, emit. unfold_monad. cbv beta iota.
  destruct (Z.eqb_spec max 0) as [->|_]; [lia|]. cbn [negb].
  unfold py_slice_to, py_slice_from, py_len, slice_bound.
  destruct (Z.ltb_spec max 0) as [_|?]; [|lia].
  rewrite !length_fmap. fold n.
  rewrite <- fmap_take, <- fmap_drop, py_eq_str_list.
  rewrite bool_decide_eq_false_2.
  2:{ intros Heq. symmetry in Heq. apply take_all_iff in Heq.
      destruct hints; [done|]. simpl in *. lia. }
  cbn [negb]. by rewrite py_join_str_list.
Qed.

(** X13: a negative limit counts from the end, as the slice
    [authority_hints[:max_authority_hints]] does: the last hints are
    dropped, all of them when the list is no longer than the limit is
    negative; the warning names the dropped hints and the batch that is
    requested holds the others. *)
Theorem get_superiors_negative_limit self o st arg hints max :
  heap st !! self = Some o →
  effective_authority_hints o arg = Ok (JList (JStr <$> hints)) →
  hints ≠ [] →
  max < 0 →
  let n := Z.to_nat (Z.of_nat (length hints) + max) in
  events (get_superiors self arg max st).2
  = events st ++ [clamp_warning hints max n]
    ++ (statement_request <$> (JStr <$> take n hints))
    ++ [EvHttpGet (JList (JStr <$> take n hints)) (EC.httpc_params o)].
Proof.
  intros Hself Heff Hne Hmax n.
  pose proof (clamp_negative self o st arg hints max Hself Heff Hne Hmax)
    as Hclamp.
  rewrite (get_superiors_events _ _ _ _ _ _ o Hclamp); [|done].
  simpl. by rewrite <- app_assoc.
Qed.

Lemma set_verified_superiors_id o :
  EC.set_verified_superiors (EC.verified_superiors o) o = o.
Proof. by destruct o. Qed.

Lemma only_verified_superiors_refl self st :
  only_verified_superiors self st st.
Proof.
  intros l o Ho. case_decide; [|done].
  exists (EC.verified_superiors o). by rewrite set_verified_superiors_id.
Qed.

Lemma only_verified_superiors_trans self st1 st2 st3 :
  only_verified_superiors self st1 st2 →
  only_verified_superiors self st2 st3 →
  only_verified_superiors self st1 st3.
Proof.
  intros H12 H23 l o Ho. specialize (H12 l o Ho).
  destruct (decide (l = self)) as [->|Hne].
  - destruct H12 as [d Hd]. specialize (H23 self _ Hd).
    rewrite decide_True in H23 by done. destruct H23 as [d' Hd'].
    exists d'. rewrite Hd'. by destruct o.
  - specialize (H23 l o H12). by rewrite decide_False in H23.
Qed.

Lemma only_verified_superiors_heap self st st' :
  heap st' = heap st → only_verified_superiors self st st'.
Proof.
  intros Hheap l o Ho. rewrite Hheap. case_decide; [|done].
  exists (EC.verified_superiors o). by rewrite set_verified_superiors_id.
Qed.

(** Instances that are new in [st'], the others being as in [st]. *)
Lemma only_verified_superiors_grow self st st' :
  (∀ l o, heap st !! l = Some o → heap st' !! l = Some o) →
  only_verified_superiors self st st'.
Proof.
  intros Hgrow l o Ho. apply Hgrow in Ho. case_decide; [|done].
  exists (EC.verified_superiors o). by rewrite set_verified_superiors_id.
Qed.

Lemma route_superior_only_verified_superiors self jwt :
  preserves (only_verified_superiors self) (route_superior self jwt).
Proof.
  intros st. unfold route_superior.
  destruct (heap st !! self) as [o|] eqn:Hself.
  2:{ unfold get_obj. unfold_monad. rewrite Hself.
      apply only_verified_superiors_refl. }
  rewrite (bind_ok _ _ _ _ _ (get_obj_live _ _ _ Hself)).
  destruct (EntityConfiguration__init__ jwt (EC.httpc_params o) (JList [])
              (JList []) (JList []) st) as [[l|e] st1] eqn:Hinit.
  2:{ rewrite (bind_err _ _ _ _ _ Hinit).
      apply init_err_state in Hinit as ->.
      apply only_verified_superiors_refl. }
  rewrite (bind_ok _ _ _ _ _ Hinit).
  apply init_ok_inv in Hinit
    as (header & payload & sub & jwks & kids & _ & _ & _ & _ & _ & -> & ->).
  set (l := fresh (dom (heap st))) in *.
  assert (heap st !! l = None) as Hfresh by apply fresh_loc_unused.
  assert (l ≠ self) as Hne by congruence.
  set (o_l := EC.mk _ _ _ _ _ _ _ _ _ _ _ _ _ _ _ _).
  set (st1 := mkState _ _ _).
  assert (∀ l' o' x, heap st !! l' = Some o' →
                     <[l := x]> (heap st) !! l' = Some o') as Hold.
  { intros l' o' x Ho'. rewrite lookup_insert_ne; [done|congruence]. }
  destruct (validate_by_itself l st1) as [r st2] eqn:Hv.
  destruct (validate_by_itself_inv _ _ _ _ Hv)
    as [(e & -> & ->)|(-> & -> & _)].
  { rewrite (bind_err _ _ _ _ _ Hv).
    apply only_verified_superiors_grow. intros l' o'. apply Hold. }
  rewrite (bind_ok _ _ _ _ _ Hv).
  unfold validated, st1. cbn [heap events net].
  rewrite lookup_insert_eq, insert_insert_eq.
  set (st2 := mkState _ _ _).
  assert (only_verified_superiors self st st2) as H2.
  { apply only_verified_superiors_grow. intros l' o'. apply Hold. }
  assert (heap st2 !! l = Some (EC.set_is_valid true o_l)) as Hl
    by apply lookup_insert_eq.
  assert (heap st2 !! self = Some o) as Hself2 by by apply Hold.
  rewrite (bind_ok _ _ _ _ _ (get_obj_live _ _ _ Hl)).
  unfold_monad.
  destruct (py_getitem (EC.payload (EC.set_is_valid true o_l)) "sub");
    [|done].
  destruct (hash_key a) as [k|]; [|done].
  rewrite (modify_obj_live _ _ _ _ Hself2). simpl.
  intros l' o' Ho'. destruct (decide (l' = self)) as [->|Hls].
  - rewrite Hself in Ho'. injection Ho' as <-.
    eexists. cbn [heap]. by rewrite lookup_insert_eq.
  - cbn [heap]. rewrite lookup_insert_ne by done. by apply Hold.
Qed.

(** X14: whatever [get_superiors] is given and however it ends, the
    instances that were there keep all their attributes, but for the
    [verified_superiors] of the instance it is called on: nothing is ever
    assigned in [failed_superiors]. *)
Theorem get_superiors_only_verified_superiors self arg max st :
  only_verified_superiors self st (get_superiors self arg max st).2.
Proof.
  rewrite get_superiors_split.
  pose proof (fetched_batch_heap self arg max st) as Hheap.
  unfold mbind, M_bind, bind.
  destruct (fetched_batch self arg max st) as [[jwts|e] st1]; simpl in *.
  2:{ by apply only_verified_superiors_heap. }
  eapply only_verified_superiors_trans;
    [by apply only_verified_superiors_heap|].
  revert st1 Hheap. intros st1 _.
  change (only_verified_superiors self st1 (route_batch self jwts st1).2).
  revert st1. change (preserves (only_verified_superiors self)
                        (route_batch self jwts)).
  unfold route_batch.
  repeat first
    [ apply route_superior_only_verified_superiors
    | preserves_step (only_verified_superiors_refl self)
        (only_verified_superiors_trans self) ].
Qed.

End resolving.

(** ** Validation by the superiors *)

Section by_superiors.
Context `{C : Collaborators}.
Context {X : Type} (part : EntityConfiguration → X).

Lemma keeps_refl st : keeps part st st.
Proof. intros l o Ho. by exists o. Qed.

Lemma keeps_trans st1 st2 st3 :
  keeps part st1 st2 → keeps part st2 st3 → keeps part st1 st3.
Proof.
  intros H12 H23 l o Ho. destruct (H12 l o Ho) as (o2 & Ho2 & Hp2).
  destruct (H23 l o2 Ho2) as (o3 & Ho3 & Hp3).
  exists o3. split; [done|]. congruence.
Qed.

Lemma keeps_heap st st' : heap st' = heap st → keeps part st st'.
Proof. intros Hheap l o Ho. exists o. by rewrite Hheap. Qed.

Lemma keeps_modify_obj l f :
  (∀ o, part (f o) = part o) → preserves (keeps part) (modify_obj l f).
Proof.
  intros Hf st. unfold modify_obj.
  destruct (heap st !! l) as [o|] eqn:Ho; [|apply keeps_refl].
  intros l' o' Ho'. simpl. destruct (decide (l = l')) as [<-|Hne].
  - rewrite lookup_insert_eq. eexists. split; [done|]. congruence.
  - rewrite lookup_insert_ne by done. by exists o'.
Qed.

Lemma keeps_logger lv msg : preserves (keeps part) (logger lv msg).
Proof. intros st. by apply keeps_heap. Qed.

Lemma keeps_run_http_get urls hp :
  preserves (keeps part) (run_http_get urls hp).
Proof. intros st. apply keeps_heap. unfold run_http_get. by case_match. Qed.

Hypothesis part_validity : ∀ b o, part (EC.set_is_valid b o) = part o.

Lemma keeps_validate_by_itself ec :
  preserves (keeps part) (validate_by_itself ec).
Proof.
  intros st. destruct (validate_by_itself ec st) as [r st'] eqn:Hrun.
  apply validate_by_itself_inv in Hrun as [(e & -> & ->)|(-> & -> & _)];
    [apply keeps_refl|].
  simpl. intros l o Ho. destruct (validated_lookup ec st l o Ho) as [b Hb].
  eexists. split; [exact Hb|]. apply part_validity.
Qed.

Lemma keeps_validate_descendant_statement ec jwt :
  preserves (keeps part) (validate_descendant_statement ec jwt).
Proof.
  intros st. destruct (validate_descendant_statement ec jwt st)
    as [r st'] eqn:Hrun.
  apply validate_descendant_statement_inv in Hrun as [-> _].
  apply keeps_refl.
Qed.

End by_superiors.

(** One step of a proof that a method keeps a part of the instances. *)
Ltac keeps_step part Hvalidity :=
  first
    [ apply (keeps_validate_by_itself part Hvalidity)
    | apply (keeps_validate_descendant_statement part)
    | apply (keeps_logger part)
    | apply (keeps_run_http_get part)
    | apply (keeps_modify_obj part); by intros []
    | preserves_step (keeps_refl part) (keeps_trans part)
    | match goal with
      | |- preserves _ (match ?x with _ => _ end) => destruct x
      | |- preserves _ (if ?x then _ else _) => destruct x
      | |- preserves _ (let '(_, _) := ?x in _) => destruct x
      end ].

Section by_superiors_facts.
Context `{C : Collaborators}.

Lemma constructed_part_validity b o :
  constructed_part (EC.set_is_valid b o) = constructed_part o.
Proof. by destruct o. Qed.

Lemma keeps_get_entity_statements urls hp :
  preserves (keeps constructed_part) (get_entity_statements urls hp).
Proof.
  unfold get_entity_statements.
  repeat keeps_step constructed_part constructed_part_validity.
Qed.

Lemma constructed_part_target_setitem t k v o :
  constructed_part (target_setitem t k v o) = constructed_part o.
Proof. by destruct t, o. Qed.

Lemma keeps_validate_by_superior_statement self jwt ec :
  preserves (keeps constructed_part)
    (validate_by_superior_statement self jwt ec).
Proof.
  unfold validate_by_superior_statement, superior_statement_try,
    superior_statement_checks.
  repeat first
    [ apply (keeps_modify_obj constructed_part); intros o;
      apply constructed_part_target_setitem
    | keeps_step constructed_part constructed_part_validity ].
Qed.

Lemma keeps_validate_by_superior self ec :
  preserves (keeps constructed_part) (validate_by_superior self ec).
Proof.
  unfold validate_by_superior.
  repeat first
    [ apply keeps_get_entity_statements
    | apply keeps_validate_by_superior_statement
    | keeps_step constructed_part constructed_part_validity ].
Qed.

(** X15: whatever the superiors and however the call ends,
    [validate_by_superiors] leaves to every instance the attributes that
    [__init__] took from the token and from its arguments ([jwt],
    [header], [payload], [sub], [jwks], [kids], [httpc_params] and the
    three trust-mark arguments), and its [failed_by_superiors]: no outcome
    is ever filed there. *)
Theorem validate_by_superiors_keeps_constructed_part self superiors st :
  keeps constructed_part st (validate_by_superiors self superiors st).2.
Proof.
  revert st.
  change (preserves (keeps constructed_part)
            (validate_by_superiors self superiors)).
  unfold validate_by_superiors.
  repeat first
    [ apply keeps_validate_by_superior
    | keeps_step constructed_part constructed_part_validity ].
Qed.

(** X16: for a superior that declares an endpoint,
    [validate_by_superiors] sends one batch with that endpoint, runs
    [validate_by_superior_statement] on the first response, and files the
    outcome, [True] or [False] alike, in [verified_by_superiors] under the
    [sub] of the superior. *)
Theorem validate_by_superior_files_outcome
    self ec st o o_ec url jwt more st1 outcome st2 k :
  heap st !! self = Some o →
  heap st !! ec = Some o_ec →
  federation_api_endpoint (EC.payload o_ec) = Ok url →
  get_entity_statements (JList [url]) (EC.httpc_params o) st
  = (Ok (jwt :: more), st1) →
  validate_by_superior_statement self jwt ec st1 = (Ok outcome, st2) →
  hash_key (EC.sub o_ec) = Ok k →
  ∃ o2,
    heap st2 !! self = Some o2 ∧
    validate_by_superiors self [ec] st
    = (Ok (<[k := VJson (JBool outcome)]> (EC.verified_by_superiors o2)),
       mkState
         (<[self := EC.set_verified_by_superiors
                      (<[k := VJson (JBool outcome)]>
                         (EC.verified_by_superiors o2)) o2]> (heap st2))
         (events st2) (net st2)).
Proof.
  intros Hself Hec Hurl Hfetch Hrun Hk.
  pose proof (keeps_get_entity_statements (JList [url]) (EC.httpc_params o)
                st) as K1.
  rewrite Hfetch in K1. simpl in K1.
  pose proof (keeps_validate_by_superior_statement self jwt ec st1) as K2.
  rewrite Hrun in K2. simpl in K2.
  pose proof (keeps_trans _ _ _ _ K1 K2) as K.
  destruct (K self o Hself) as (o2 & Ho2 & _).
  destruct (K ec o_ec Hec) as (o_ec2 & Hec2 & Hpart).
  assert (EC.sub o_ec2 = EC.sub o_ec) as Hsub.
  { unfold constructed_part in Hpart. by simplify_eq. }
  exists o2. split; [done|].
  set (st3 := mkState _ _ _).
  assert (validate_by_superior self ec st = (Ok tt, st3)) as Hstep.
  { unfold validate_by_superior.
    rewrite (bind_ok _ _ _ _ _ (get_obj_live _ _ _ Hec)). rewrite Hurl.
    rewrite (bind_ok _ _ _ _ _ (get_obj_live _ _ _ Hself)).
    rewrite (bind_ok _ _ _ _ _ Hfetch).
    rewrite (bind_lift_ok _ _ _ jwt eq_refl).
    rewrite (bind_ok _ _ _ _ _ Hrun).
    rewrite (bind_ok _ _ _ _ _ (get_obj_live _ _ _ Hec2)).
    rewrite Hsub, (bind_lift_ok _ _ _ _ Hk).
    by rewrite (modify_obj_live _ _ _ _ Ho2). }
  assert (for_each [ec] (validate_by_superior self) st = (Ok tt, st3))
    as Hloop.
  { simpl. by rewrite (bind_ok _ _ _ _ _ Hstep). }
  unfold validate_by_superiors. rewrite (bind_ok _ _ _ _ _ Hloop).
  assert (heap st3 !! self
          = Some (EC.set_verified_by_superiors
                    (<[k := VJson (JBool outcome)]>
                       (EC.verified_by_superiors o2)) o2)) as Hself3
    by apply lookup_insert_eq.
  rewrite (bind_ok _ _ _ _ _ (get_obj_live _ _ _ Hself3)).
  by destruct o2.
Qed.

(** X17: only [KeyError] is caught when the endpoint is read.  A superior
    whose [metadata] claim is not a [dict] makes [validate_by_superiors]
    raise [TypeError] at once: no warning is logged, nothing is recorded,
    and the superiors after it are not processed. *)
Theorem validate_by_superiors_odd_metadata self ec rest st o_ec kv metadata :
  heap st !! ec = Some o_ec →
  EC.payload o_ec = JObj kv →
  assoc "metadata" kv = Some metadata →
  (∀ mv, metadata ≠ JObj mv) →
  validate_by_superiors self (ec :: rest) st = (Err TypeError, st).
Proof.
  intros Hec Hp Hm Hodd.
  assert (validate_by_superior self ec st = (Err TypeError, st)) as Hstep.
  { unfold validate_by_superior.
    rewrite (bind_ok _ _ _ _ _ (get_obj_live _ _ _ Hec)).
    unfold federation_api_endpoint. rewrite Hp. unfold_monad. simpl.
    rewrite Hm. destruct metadata; try done. by destruct (Hodd kv0). }
  unfold validate_by_superiors. simpl.
  assert ((validate_by_superior self ec ;;
           for_each rest (validate_by_superior self)) st
          = (Err TypeError, st)) as Hloop
    by by rewrite (bind_err _ _ _ _ _ Hstep).
  by rewrite (bind_err _ _ _ _ _ Hloop).
Qed.

(** X18: on an instance that has been given an [invalid_superiors]
    dictionary, a superior without endpoint is recorded there with [None]
    under its [sub], after the warning, and the loop goes on with the
    next superior. *)
Theorem validate_by_superiors_records_unreachable
    self ec rest st o o_ec d k :
  heap st !! self = Some o →
  heap st !! ec = Some o_ec →
  federation_api_endpoint (EC.payload o_ec) = Err KeyError →
  EC.invalid_superiors o = Some d →
  hash_key (EC.sub o_ec) = Ok k →
  validate_by_superiors self (ec :: rest) st
  = validate_by_superiors self rest
      (mkState
         (<[self := EC.set_invalid_superiors (<[k := VJson JNull]> d) o]>
            (heap st))
         (events st ++ [missing_endpoint_warning o o_ec]) (net st)).
Proof.
  intros Hself Hec Hmiss Hattr Hk.
  set (st1 := mkState _ _ _).
  assert (validate_by_superior self ec st = (Ok tt, st1)) as Hstep.
  { unfold validate_by_superior, get_obj, modify_obj, logger, emit.
    unfold_monad. rewrite Hec, Hmiss, Hself, Hattr, Hk.
    cbn [heap events net]. by rewrite Hself. }
  unfold validate_by_superiors. simpl.
  assert ((validate_by_superior self ec ;;
           for_each rest (validate_by_superior self)) st
          = for_each rest (validate_by_superior self) st1) as Hloop
    by by rewrite (bind_ok _ _ _ _ _ Hstep).
  unfold mbind, M_bind, bind in *. by rewrite Hloop.
Qed.

End by_superiors_facts.

(** ** The further properties on the small federation *)

Section more_scenarios.
Import Federation.

Lemma entity_statements_witness :
  get_entity_statements (JList [JStr ta_sub]) no_params st0
  = (Ok ["ta.jwt"],
     mkState ∅ [statement_request (JStr ta_sub);
                EvHttpGet (JList [JStr ta_sub]) no_params] tt) ∧
  get_entity_statements (JStr ta_sub) no_params st0
  = get_entity_statements (JList [JStr ta_sub]) no_params st0 ∧
  get_entity_statements JNull no_params st0 = (Err TypeError, st0).
Proof.
  destruct (get_entity_statements_batch no_params st0)
    as (Hlist & Hstr & Hnone).
  split; [exact (Hlist [JStr ta_sub])|].
  split; [exact (Hstr ta_sub)|].
  apply Hnone. by left.
Defined.

Lemma empty_subject_witness :
  Forall (λ s, s ≠ "") ["https://ta.example/"] ∧
  ∃ urls,
    Forall2 discovery_url_of ["https://ta.example/"] urls ∧
    get_entity_configurations
      (Subjects (["https://ta.example/"] ++ "" :: ["https://leaf.example/"]))
      no_params st0
    = (Err IndexError,
       mkState (heap st0) (events st0 ++ (configuration_request <$> urls))
         (net st0)).
Proof.
  assert (Forall (λ s, s ≠ "") ["https://ta.example/"]) as Hne
    by by repeat constructor.
  split; [done|]. by apply get_entity_configurations_empty_subject.
Defined.

Lemma kids_follow_jwks_witness :
  EntityConfiguration__init__ "leaf.jwt" no_params (JList []) (JList [])
    (JList []) st0 = (Ok leaf, leaf_st (JList [])) ∧
  ∃ o,
    heap (leaf_st (JList [])) !! leaf = Some o ∧
    ∀ keys,
      EC.jwks o = JList keys →
      length (EC.kids o) = length keys ∧
      ∀ i pub_jwk,
        keys !! i = Some pub_jwk →
        ∃ kv, pub_jwk = JObj kv ∧
              EC.kids o !! i = Some (default JNull (assoc "kid" kv)).
Proof.
  assert (EntityConfiguration__init__ "leaf.jwt" no_params (JList [])
            (JList []) (JList []) st0 = (Ok leaf, leaf_st (JList [])))
    as Hinit by by vm_compute.
  split; [done|]. by apply (init_kids_follow_jwks _ _ _ _ _ _ _ _ Hinit).
Defined.

Lemma idempotent_witness :
  let st := leaf_st (JList []) in
  let run := validate_by_itself leaf st in
  run = (Ok true, run.2) ∧ validate_by_itself leaf run.2 = (Ok true, run.2).
Proof.
  intros st run.
  assert (run = (Ok true, run.2)) as Hrun by by vm_compute.
  split; [done|]. by apply (validate_by_itself_idempotent leaf st).
Defined.

Lemma validate_by_itself_true_witness :
  let st := leaf_st (JList []) in
  let run := validate_by_itself leaf st in
  run = (Ok true, run.2) ∧
  ∃ o kid i pub_jwk msg,
    heap st !! leaf = Some o ∧
    claim (EC.header o) "kid" = Some kid ∧
    py_index (EC.kids o) kid = Ok i ∧
    (∀ j y, (j < i)%nat → EC.kids o !! j = Some y → py_eq y kid = false) ∧
    py_getitem_idx (EC.jwks o) i = Ok pub_jwk ∧
    verify_jws (EC.jwt o) pub_jwk = Ok msg ∧
    run.2 = mkState (<[leaf := EC.set_is_valid true o]> (heap st))
              (events st) (net st).
Proof.
  intros st run.
  assert (run = (Ok true, run.2)) as Hrun by by vm_compute.
  split; [done|].
  exact (proj2 (validate_by_itself_true leaf st true run.2 Hrun)).
Defined.

Lemma validate_by_itself_raises_witness :
  let rogue :=
    instance_of "rogue.jwt" (head_of "r9") (JList [key_of "r1"]) [JStr "r1"]
      rogue_payload "https://rogue.example/" in
  validate_by_itself leaf (lone rogue)
  = (Err (UnknownKid (JStr "r9") (JList [key_of "r1"])), lone rogue) ∧
  validate_by_itself leaf (lone kidless) = (Err KeyError, lone kidless) ∧
  validate_by_itself leaf (lone forged)
  = (Err (OtherError "binascii.Error"), lone forged).
Proof.
  intros rogue. split; [|split].
  - by apply (proj1 (validate_by_itself_raises leaf (lone rogue) rogue
                       eq_refl) (JStr "r9")).
  - by apply (proj1 (proj2 (validate_by_itself_raises leaf (lone kidless)
                              kidless eq_refl))
                [("alg", JStr "RS256")]).
  - by apply (proj2 (proj2 (validate_by_itself_raises leaf (lone forged)
                              forged eq_refl))
                (JStr "k1") O (key_of "k1")).
Defined.

Lemma descendant_unknown_kid_witness :
  let st := resolved_st [ta_sub] in
  let o := instance_at st superior in
  heap st !! superior = Some o ∧
  validate_descendant_statement superior "leaf.jwt" st
  = (Err (UnknownKid (JStr "ta1") (JList [key_of "ta1"])), st).
Proof.
  intros st o.
  assert (heap st !! superior = Some o) as Ho by by vm_compute.
  split; [done|].
  by apply (validate_descendant_statement_unknown_kid superior "leaf.jwt" st
              o (head_of "k1") leaf_payload (JStr "k1") (JStr "ta1")).
Defined.

Lemma descendant_true_witness :
  let st := resolved_st [ta_sub] in
  validate_descendant_statement superior "stmt.jwt" st = (Ok true, st) ∧
  ∃ o header payload kid i pub_jwk msg,
    heap st !! superior = Some o ∧
    unpad_jwt_head "stmt.jwt" = Ok header ∧
    unpad_jwt_payload "stmt.jwt" = Ok payload ∧
    claim header "kid" = Some kid ∧
    py_index (EC.kids o) kid = Ok i ∧
    (∀ j y, (j < i)%nat → EC.kids o !! j = Some y → py_eq y kid = false) ∧
    py_getitem_idx (EC.jwks o) i = Ok pub_jwk ∧
    verify_jws "stmt.jwt" pub_jwk = Ok msg.
Proof.
  intros st.
  assert (validate_descendant_statement superior "stmt.jwt" st
          = (Ok true, st)) as Hrun by by vm_compute.
  split; [done|].
  destruct (validate_descendant_statement_true superior "stmt.jwt" st)
    as [_ Htrue].
  apply (Htrue true). by rewrite Hrun.
Defined.

Lemma superior_statement_true_witness :
  let st := resolved_st [ta_sub] in
  let run := validate_by_superior_statement leaf "stmt.jwt" superior st in
  heap st !! leaf = Some (instance_at st leaf) ∧
  run = (Ok true, run.2) ∧
  ∃ o_ec', heap run.2 !! superior = Some o_ec' ∧ EC.is_valid o_ec' = true.
Proof.
  intros st run.
  assert (heap st !! leaf = Some (instance_at st leaf)) as Hself
    by by vm_compute.
  assert (run = (Ok true, run.2)) as Hrun by by vm_compute.
  split; [done|]. split; [done|].
  destruct (validate_by_superior_statement_true leaf "stmt.jwt" superior st
              _ _ Hself Hrun)
    as (payload & o_ec & o_ec' & _ & _ & Hec' & Hvalid & _).
  by exists o_ec'.
Defined.

Lemma without_issuer_witness :
  let o := default kidless (heap noiss_st !! leaf) in
  heap noiss_st !! leaf = Some o ∧
  @unpad_jwt_payload with_noiss "stmt-noiss.jwt" = Ok stmt_noiss_payload ∧
  (@validate_by_superior_statement with_noiss leaf "stmt-noiss.jwt" superior
     noiss_st).1 = Err KeyError.
Proof.
  intros o.
  assert (heap noiss_st !! leaf = Some o) as Hself by by vm_compute.
  split; [done|]. split; [done|].
  by apply (@validate_by_superior_statement_without_issuer with_noiss leaf
              "stmt-noiss.jwt" superior noiss_st o
              [("sub", JStr leaf_sub); ("jwks", JList [key_of "k1"])]).
Defined.

Lemma without_hints_witness :
  let st := resolved_st [ta_sub] in
  heap st !! superior = Some (instance_at st superior) ∧
  EC.payload (instance_at st superior) = ta_payload ∧
  get_superiors superior (JList []) 0 st = (Err KeyError, st).
Proof.
  intros st.
  assert (heap st !! superior = Some (instance_at st superior)) as Hself
    by by vm_compute.
  split; [done|]. split; [by vm_compute|].
  eapply get_superiors_without_hints; [exact Hself|done| |];
    by vm_compute.
Defined.

Lemma negative_limit_witness :
  let st := leaf_st (JList []) in
  let o := instance_at st leaf in
  let arg := JList (JStr <$> five_hints) in
  heap st !! leaf = Some o ∧
  effective_authority_hints o arg = Ok arg ∧
  events (get_superiors leaf arg (-2) st).2
  = events st ++ [clamp_warning five_hints (-2) 3]
    ++ (statement_request <$> (JStr <$> take 3 five_hints))
    ++ [EvHttpGet (JList (JStr <$> take 3 five_hints)) (EC.httpc_params o)].
Proof.
  intros st o arg.
  assert (heap st !! leaf = Some o) as Hself by by vm_compute.
  assert (effective_authority_hints o arg = Ok arg) as Heff by by vm_compute.
  split; [done|]. split; [done|].
  by apply (get_superiors_negative_limit leaf o st arg five_hints (-2)).
Defined.

Lemma files_outcome_witness :
  let st := resolved_st ["https://ta2.example/"] in
  let o := instance_at st leaf in
  let o_ec := instance_at st superior in
  let url := JStr "https://ta.example/fetch-otherkey" in
  let fetch := get_entity_statements (JList [url]) (EC.httpc_params o) st in
  let run :=
    validate_by_superior_statement leaf "stmt-otherkey.jwt" superior
      fetch.2 in
  heap st !! leaf = Some o ∧
  heap st !! superior = Some o_ec ∧
  federation_api_endpoint (EC.payload o_ec) = Ok url ∧
  fetch = (Ok ["stmt-otherkey.jwt"], fetch.2) ∧
  run = (Ok false, run.2) ∧
  (validate_by_superiors leaf [superior] st).1
  = Ok (<[KStr "https://ta2.example/" := VJson (JBool false)]> ∅).
Proof.
  intros st o o_ec url fetch run.
  assert (heap st !! leaf = Some o) as Hself by by vm_compute.
  assert (heap st !! superior = Some o_ec) as Hec by by vm_compute.
  assert (federation_api_endpoint (EC.payload o_ec) = Ok url) as Hurl
    by by vm_compute.
  assert (fetch = (Ok ["stmt-otherkey.jwt"], fetch.2)) as Hfetch
    by by vm_compute.
  assert (run = (Ok false, run.2)) as Hrun by by vm_compute.
  do 5 (split; [done|]).
  destruct (validate_by_superior_files_outcome leaf superior st o o_ec url
              "stmt-otherkey.jwt" [] fetch.2 false run.2
              (KStr "https://ta2.example/") Hself Hec Hurl Hfetch Hrun
              eq_refl) as (o2 & Ho2 & ->).
  cbn [fst]. f_equal. f_equal.
  assert (heap run.2 !! leaf = Some (instance_at run.2 leaf)) as Ho2'
    by by vm_compute.
  rewrite Ho2 in Ho2'. injection Ho2' as ->. by vm_compute.
Defined.

Lemma odd_metadata_witness :
  heap odd_st !! superior = Some (instance_at odd_st superior) ∧
  EC.payload (instance_at odd_st superior) = odd_payload ∧
  validate_by_superiors leaf [superior] odd_st = (Err TypeError, odd_st).
Proof.
  assert (heap odd_st !! superior = Some (instance_at odd_st superior))
    as Hec by by vm_compute.
  split; [done|]. split; [by vm_compute|].
  eapply (validate_by_superiors_odd_metadata leaf superior [] odd_st _ _
            (JStr "federation_entity") Hec); by vm_compute.
Defined.

Lemma records_unreachable_witness :
  let st := prepared_st in
  let o := instance_at st leaf in
  let o_ec := instance_at st superior in
  heap st !! leaf = Some o ∧
  heap st !! superior = Some o_ec ∧
  federation_api_endpoint (EC.payload o_ec) = Err KeyError ∧
  EC.invalid_superiors o = Some ∅ ∧
  validate_by_superiors leaf [superior; 3%positive] st
  = validate_by_superiors leaf [3%positive]
      (mkState
         (<[leaf := EC.set_invalid_superiors
                      (<[KStr "https://bare.example/" := VJson JNull]> ∅)
                      o]> (heap st))
         (events st ++ [missing_endpoint_warning o o_ec]) (net st)).
Proof.
  intros st o o_ec.
  do 4 (split; [by vm_compute|]).
  by apply validate_by_superiors_records_unreachable; vm_compute.
Defined.

Lemma only_verified_superiors_witness :
  let st := leaf_st (JList []) in
  let run :=
    get_superiors leaf (JList (JStr <$> ["https://rogue.example/"; ta_sub]))
      0 st in
  heap st !! leaf = Some (instance_at st leaf) ∧
  ∃ d, heap run.2 !! leaf
       = Some (EC.set_verified_superiors d (instance_at st leaf)).
Proof.
  intros st run.
  assert (heap st !! leaf = Some (instance_at st leaf)) as Hself
    by by vm_compute.
  split; [done|].
  pose proof (get_superiors_only_verified_superiors leaf
                (JList (JStr <$> ["https://rogue.example/"; ta_sub])) 0 st
                leaf _ Hself) as Hkept.
  by rewrite decide_True in Hkept.
Defined.

Lemma keeps_constructed_part_witness :
  let st := resolved_st ["https://ta2.example/"] in
  let run := validate_by_superiors leaf [superior] st in
  heap st !! superior = Some (instance_at st superior) ∧
  ∃ o', heap run.2 !! superior = Some o' ∧
        constructed_part o' = constructed_part (instance_at st superior).
Proof.
  intros st run.
  assert (heap st !! superior = Some (instance_at st superior)) as Hec
    by by vm_compute.
  split; [done|].
  exact (validate_by_superiors_keeps_constructed_part leaf [superior] st
           superior _ Hec).
Defined.

End more_scenarios.
